(** * Sectify: relevance display, upload dispatch and the scoring core

    Part I embeds the program: the React components of the front end
    ([SectionDisplay], [DocumentUpload], [App]) as they are written, and of
    the scoring core the segmenter, the scorer's two modes and the feedback
    store with its training controller, as the design document describes
    them.  Parts II and III state and prove the properties.

    JavaScript numbers are IEEE 754 binary64 values, so relevance scores and
    thresholds of the front end are primitive floats and [>=] is the IEEE
    comparison.  A JavaScript [Set] of strings is a [gset string]. *)

From Stdlib Require Import ZArith QArith Floats String Ascii List Bool Lia.
From stdpp Require Import base gmap sets list strings pretty.
Import ListNotations.

Set Warnings "-inexact-float".
Local Open Scope string_scope.

(* ===================================================================== *)
(** * Part I -- the program                                               *)
(* ===================================================================== *)

(** ** Promises *)

(** The two ways an awaited promise settles. *)
Inductive Settled (A : Type) : Type :=
| Resolved (value : A)
| Rejected (error : string).
Arguments Resolved {A} value.
Arguments Rejected {A} error.

(** ** components/SectionDisplay.jsx *)

Module SectionDisplay.

(** [a >= b] on JavaScript numbers: false as soon as one side is NaN. *)
Definition js_ge (a b : float) : bool := PrimFloat.leb b a.

(** A number, as opposed to NaN ([Number.isNaN(x)] is false). *)
Definition is_number (x : float) : Prop := PrimFloat.is_nan x = false.

(** [a < b] on JavaScript numbers. *)
Definition js_lt (a b : float) : bool := PrimFloat.ltb a b.

(** One element of [doc.sections], with the fields the component reads. *)
Record ScoredSection : Type := {
  section_id : Z;
  title : string;
  page_number : option Z;
  tags : option (list string);
  relevance_score : float;
  content : string
}.

(** One element of the [documents] prop. *)
Record Document : Type := {
  document_id : string;
  document_name : string;
  total_sections : Z;
  sections : list ScoredSection;
  processing_time : option float
}.

(** The template string [`${docId}-${sectionId}`]. *)
Definition key (docId : string) (sectionId : Z) : string :=
  docId ++ "-" ++ pretty sectionId.

(** [getScoreClass] *)
Definition getScoreClass (score : float) : string :=
  if js_ge score 0.7 then "high"
  else if js_ge score 0.4 then "medium"
  else "low".

(** [getScoreColor] *)
Definition getScoreColor (score : float) : string :=
  if js_ge score 0.7 then "text-emerald-400"
  else if js_ge score 0.4 then "text-yellow-400"
  else "text-red-400".

(** [doc.sections.filter(s => s.relevance_score >= threshold)] *)
Definition filteredSections (threshold : float) (doc : Document)
  : list ScoredSection :=
  List.filter (fun s => js_ge (relevance_score s) threshold) (sections doc).

(** [toggleSection]: copy the set, flip the key, store the copy. *)
Definition toggleSection (expandedSections : gset string)
    (docId : string) (sectionId : Z) : gset string :=
  let k := key docId sectionId in
  if decide (k ∈ expandedSections)
  then expandedSections ∖ {[k]}
  else expandedSections ∪ {[k]}.

(** What one element of [filteredSections.map(...)] puts on screen. *)
Record SectionCard : Type := {
  card_section : ScoredSection;
  card_class : string;
  card_color : string;
  card_expanded : bool;
  card_prompt : bool;
  card_submitted : bool
}.

(** What one element of [documents.map(...)] puts on screen. *)
Record DocumentView : Type := {
  view_name : string;
  view_total : Z;
  view_relevant : nat;
  view_showing : nat;
  view_cards : list SectionCard;
  view_empty_notice : bool
}.

(** The feedback prompt of a card: [isExpanded && trainingMode && !hasFeedback]. *)
Definition promptShown (trainingMode : bool)
    (expandedSections feedbackGiven : gset string) (k : string) : bool :=
  bool_decide (k ∈ expandedSections) && (trainingMode && negb (bool_decide (k ∈ feedbackGiven))).

Definition renderCard (trainingMode : bool)
    (expandedSections feedbackGiven : gset string)
    (doc : Document) (section : ScoredSection) : SectionCard :=
  let k := key (document_id doc) (section_id section) in
  let isExpanded := bool_decide (k ∈ expandedSections) in
  let hasFeedback := bool_decide (k ∈ feedbackGiven) in
  {| card_section := section;
     card_class := getScoreClass (relevance_score section);
     card_color := getScoreColor (relevance_score section);
     card_expanded := isExpanded;
     card_prompt := promptShown trainingMode expandedSections feedbackGiven k;
     card_submitted := isExpanded && hasFeedback |}.

Definition renderDocument (trainingMode : bool) (threshold : float)
    (expandedSections feedbackGiven : gset string) (doc : Document)
  : DocumentView :=
  let filtered := filteredSections threshold doc in
  {| view_name := document_name doc;
     view_total := total_sections doc;
     view_relevant := List.length filtered;
     view_showing := List.length filtered;
     view_cards :=
       List.map (renderCard trainingMode expandedSections feedbackGiven doc) filtered;
     view_empty_notice := Nat.eqb (List.length filtered) 0 |}.

(** The component's return value: one view per document. *)
Definition render (documents : list Document) (trainingMode : bool)
    (threshold : float) (expandedSections feedbackGiven : gset string)
  : list DocumentView :=
  List.map (renderDocument trainingMode threshold expandedSections feedbackGiven)
    documents.

(** The JSON body that [api.submitFeedback] posts to [/feedback]. *)
Record FeedbackRequest : Type := {
  req_document_id : string;
  req_section_id : Z;
  req_is_relevant : bool
}.

(** An invocation of [handleFeedback] suspended at its [await].  The handler
    is a closure of the render that created it: the [feedbackGiven] it reads
    after the await is the set that render saw, whatever the state has
    become by then. *)
Record PendingFeedback : Type := {
  pending_request : FeedbackRequest;
  pending_feedbackGiven : gset string
}.

(** [handleFeedback] up to its [await]: the request leaves, the closure waits. *)
Definition handleFeedback_call (feedbackGiven : gset string)
    (docId : string) (sectionId : Z) (isRelevant : bool) : PendingFeedback :=
  {| pending_request :=
       {| req_document_id := docId;
          req_section_id := sectionId;
          req_is_relevant := isRelevant |};
     pending_feedbackGiven := feedbackGiven |}.

(** [handleFeedback] from its [await] on: the argument passed to
    [setFeedbackGiven], if it is called, and what goes to the console. *)
Definition handleFeedback_resume (p : PendingFeedback) (outcome : Settled unit)
  : option (gset string) * list string :=
  match outcome with
  | Resolved _ =>
      let r := pending_request p in
      (Some (pending_feedbackGiven p ∪ {[ key (req_document_id r) (req_section_id r) ]}), [])
  | Rejected error => (None, ["Feedback error: " ++ error])
  end.

(** [handleFeedback] from call to return, given how the request settles. *)
Definition handleFeedback (feedbackGiven : gset string)
    (docId : string) (sectionId : Z) (isRelevant : bool) (outcome : Settled unit)
  : option (gset string) * list string :=
  handleFeedback_resume (handleFeedback_call feedbackGiven docId sectionId isRelevant)
    outcome.

(** The component between two events: its three [useState] cells, the
    handlers waiting for the server, the requests sent and the console. *)
Record State : Type := {
  threshold : float;
  expandedSections : gset string;
  feedbackGiven : gset string;
  inflight : list PendingFeedback;
  posted : list FeedbackRequest;
  console : list string
}.

Definition initial : State :=
  {| threshold := 0.5;
     expandedSections := ∅;
     feedbackGiven := ∅;
     inflight := [];
     posted := [];
     console := [] |}.

(** What can happen to a mounted component: the slider moves, a card header
    is clicked, a feedback button is clicked, or the [i]-th outstanding
    feedback request settles. *)
Inductive Event : Type :=
| ChangeThreshold (value : float)
| ClickSection (docId : string) (sectionId : Z)
| ClickFeedback (docId : string) (sectionId : Z) (isRelevant : bool)
| SettleFeedback (i : nat) (outcome : Settled unit).

Definition step (st : State) (e : Event) : State :=
  match e with
  | ChangeThreshold value =>
      {| threshold := value;
         expandedSections := expandedSections st;
         feedbackGiven := feedbackGiven st;
         inflight := inflight st;
         posted := posted st;
         console := console st |}
  | ClickSection docId sectionId =>
      {| threshold := threshold st;
         expandedSections := toggleSection (expandedSections st) docId sectionId;
         feedbackGiven := feedbackGiven st;
         inflight := inflight st;
         posted := posted st;
         console := console st |}
  | ClickFeedback docId sectionId isRelevant =>
      let p := handleFeedback_call (feedbackGiven st) docId sectionId isRelevant in
      {| threshold := threshold st;
         expandedSections := expandedSections st;
         feedbackGiven := feedbackGiven st;
         inflight := (inflight st ++ [p])%list;
         posted := (posted st ++ [pending_request p])%list;
         console := console st |}
  | SettleFeedback i outcome =>
      match inflight st !! i with
      | None => st
      | Some p =>
          let '(update, lines) := handleFeedback_resume p outcome in
          {| threshold := threshold st;
             expandedSections := expandedSections st;
             feedbackGiven := default (feedbackGiven st) update;
             inflight := delete i (inflight st);
             posted := posted st;
             console := (console st ++ lines)%list |}
      end
  end.

Definition run (st : State) (events : list Event) : State :=
  fold_left step events st.

(** The key that a feedback request puts into [feedbackGiven] when it
    succeeds. *)
Definition request_key (r : FeedbackRequest) : string :=
  key (req_document_id r) (req_section_id r).

(** The event sequences in which a feedback button is clicked only while no
    feedback request is outstanding. *)
Fixpoint one_at_a_time (st : State) (events : list Event) : bool :=
  match events with
  | [] => true
  | e :: rest =>
      match e, inflight st with
      | ClickFeedback _ _ _, _ :: _ => false
      | _, _ => one_at_a_time (step st e) rest
      end
  end.

(** No ["-"] in the string: the separator of [key] does not occur in it. *)
Fixpoint no_dash (s : string) : bool :=
  match s with
  | EmptyString => true
  | String c rest => negb (Ascii.eqb c "-"%char) && no_dash rest
  end.

End SectionDisplay.

(** ** components/DocumentUpload.jsx *)

Module DocumentUpload.

(** A browser [File] as far as the component is concerned: it is only passed on. *)
Record File : Type := {
  file_name : string;
  file_type : string
}.

(** [response.data] of [POST /upload] and of [POST /batch]. *)
Record UploadResult : Type := { document_id : string }.
Record BatchResult : Type := { document_ids : list string }.

(** The server as [api/client.js] exposes it: how each request settles. *)
Record Api : Type := {
  uploadDocument : File -> float -> Settled UploadResult;
  uploadBatch : list File -> float -> Settled BatchResult;
  getDocument : string -> Settled SectionDisplay.Document
}.

(** What [onDrop] does to the outside world, in order. *)
Inductive Effect : Type :=
| SetUploading (value : bool)
| PostUpload (file : File) (threshold : float)
| PostBatch (files : list File) (threshold : float)
| GetDocument (documentId : string)
| OnUploadSuccess (documents : list SectionDisplay.Document)
| ConsoleError (message : string)
| Alert (message : string).

(** A computation that logs effects and either returns or throws. *)
Definition Async (A : Type) : Type := (list Effect * Settled A)%type.

Definition ret {A} (a : A) : Async A := ([], Resolved a).

Definition bind {A B} (m : Async A) (k : A -> Async B) : Async B :=
  match m with
  | (log, Resolved a) => let '(log', r) := k a in ((log ++ log')%list, r)
  | (log, Rejected error) => (log, Rejected error)
  end.

Notation "'let*' x ':=' m 'in' k" := (bind m (fun x => k))
  (at level 10, x name, m at level 100, k at level 200).

(** [await] of a request: the request is an effect, its outcome the result. *)
Definition await {A} (request : Effect) (outcome : Settled A) : Async A :=
  ([request], outcome).

Definition emit (e : Effect) : Async unit := ([e], Resolved tt).

(** [Promise.all(ids.map(id => api.getDocument(id)))]: every request is
    started by the [map]; the result is all values, or a rejection (taken in
    list order) once one of them rejects. *)
Fixpoint promise_all_getDocument (api : Api) (ids : list string)
  : Async (list SectionDisplay.Document) :=
  match ids with
  | [] => ret []
  | id :: rest =>
      let '(log, r) := promise_all_getDocument api rest in
      match getDocument api id, r with
      | Resolved d, Resolved ds => (GetDocument id :: log, Resolved (d :: ds))
      | Rejected error, _ => (GetDocument id :: log, Rejected error)
      | Resolved _, Rejected error => (GetDocument id :: log, Rejected error)
      end
  end.

(** The [try] block of [onDrop]; [first] is [acceptedFiles[0]]. *)
Definition onDrop_try (api : Api) (batchMode : bool) (threshold : float)
    (acceptedFiles : list File) (first : File) : Async unit :=
  if batchMode && (1 <? List.length acceptedFiles)%nat then
    let* result := await (PostBatch acceptedFiles threshold)
                         (uploadBatch api acceptedFiles threshold) in
    let* documents := promise_all_getDocument api (document_ids result) in
    emit (OnUploadSuccess documents)
  else
    let* result := await (PostUpload first threshold)
                         (uploadDocument api first threshold) in
    let* document := await (GetDocument (document_id result))
                           (getDocument api (document_id result)) in
    emit (OnUploadSuccess [document]).

(** The [catch] block: a console line and an alert. *)
Definition onDrop_catch (r : Settled unit) : list Effect :=
  match r with
  | Resolved _ => []
  | Rejected error =>
      [ConsoleError ("Upload error: " ++ error);
       Alert ("Error uploading document: " ++ error)]
  end.

(** [onDrop]: nothing at all for an empty list; otherwise the [try] block
    between [setUploading(true)] and the [finally], with the [catch] in
    between when the block throws. *)
Definition onDrop (api : Api) (batchMode : bool) (threshold : float)
    (acceptedFiles : list File) : list Effect :=
  match acceptedFiles with
  | [] => []
  | first :: _ =>
      let '(log, r) := onDrop_try api batchMode threshold acceptedFiles first in
      ([SetUploading true] ++ log ++ onDrop_catch r ++ [SetUploading false])%list
  end.

(** The requests in a log that send files to the server. *)
Definition is_upload (e : Effect) : bool :=
  match e with
  | PostUpload _ _ | PostBatch _ _ => true
  | _ => false
  end.

Definition uploads (log : list Effect) : list Effect := List.filter is_upload log.

(** Kinds of effects, to count them in a log. *)
Definition is_setUploading (e : Effect) : bool :=
  match e with SetUploading _ => true | _ => false end.

Definition is_getDocument (e : Effect) : bool :=
  match e with GetDocument _ => true | _ => false end.

Definition is_onUploadSuccess (e : Effect) : bool :=
  match e with OnUploadSuccess _ => true | _ => false end.

Definition is_alert (e : Effect) : bool :=
  match e with Alert _ => true | _ => false end.

Definition is_consoleError (e : Effect) : bool :=
  match e with ConsoleError _ => true | _ => false end.

Definition occurrences (kind : Effect -> bool) (log : list Effect) : nat :=
  List.length (List.filter kind log).

End DocumentUpload.

(** ** App.jsx *)

Module App.

(** The three [useState] cells of [App]. *)
Record State : Type := {
  documents : list SectionDisplay.Document;
  trainingMode : bool;
  view : string
}.

Definition initial : State :=
  {| documents := []; trainingMode := false; view := "upload" |}.

(** [handleUploadSuccess] *)
Definition handleUploadSuccess (st : State)
    (uploadedDocs : list SectionDisplay.Document) : State :=
  {| documents := uploadedDocs; trainingMode := trainingMode st; view := "results" |}.

(** [handleNewUpload] *)
Definition handleNewUpload (st : State) : State :=
  {| documents := []; trainingMode := trainingMode st; view := "upload" |}.

(** The [onChange] of the training checkbox: [setTrainingMode(e.target.checked)]. *)
Definition changeTrainingMode (st : State) (checked : bool) : State :=
  {| documents := documents st; trainingMode := checked; view := view st |}.

(** What [<main>] holds: [view === 'upload' ? <DocumentUpload/> : <SectionDisplay/>]. *)
Inductive Main : Type :=
| ShowDocumentUpload
| ShowSectionDisplay (documents : list SectionDisplay.Document) (trainingMode : bool).

Definition main (st : State) : Main :=
  if String.eqb (view st) "upload" then ShowDocumentUpload
  else ShowSectionDisplay (documents st) (trainingMode st).

(** The "New Upload" button and the training checkbox of the header are
    both under [view === 'results' &&]. *)
Definition header_controls (st : State) : bool := String.eqb (view st) "results".

Inductive Event : Type :=
| UploadSuccess (uploadedDocs : list SectionDisplay.Document)
| NewUpload
| ChangeTrainingMode (checked : bool).

Definition step (st : State) (e : Event) : State :=
  match e with
  | UploadSuccess uploadedDocs => handleUploadSuccess st uploadedDocs
  | NewUpload => handleNewUpload st
  | ChangeTrainingMode checked => changeTrainingMode st checked
  end.

Definition run (st : State) (events : list Event) : State :=
  fold_left step events st.

End App.

(** ** The order of binary64 numbers *)

Module Binary64.

(** A number's place in the order: the sign class first (minus infinity,
    negative, zero, positive, plus infinity), then exponent and mantissa,
    negated for negative numbers. *)
Definition rank (x : SpecFloat.spec_float) : Z * Z * Z :=
  match x with
  | SpecFloat.S754_zero _ => (0, 0, 0)%Z
  | SpecFloat.S754_infinity true => (-2, 0, 0)%Z
  | SpecFloat.S754_infinity false => (2, 0, 0)%Z
  | SpecFloat.S754_nan => (0, 0, 0)%Z
  | SpecFloat.S754_finite true m e => (-1, - e, Zneg m)%Z
  | SpecFloat.S754_finite false m e => (1, e, Zpos m)%Z
  end.

Definition lex_le (a b : Z * Z * Z) : Prop :=
  let '(a1, a2, a3) := a in
  let '(b1, b2, b3) := b in
  (a1 < b1 \/ (a1 = b1 /\ (a2 < b2 \/ (a2 = b2 /\ a3 <= b3))))%Z.

Definition not_nan (x : SpecFloat.spec_float) : Prop :=
  match x with SpecFloat.S754_nan => False | _ => True end.

End Binary64.

(** ** The scoring core

    The back end (segmenter, feature extractor, scorer, feedback store) is
    not among the sources at hand; the front end only calls it through
    [api/client.js].  The modules below follow the design document sentence
    by sentence, as far as the properties of Part II need it: the segmenter,
    the shape of a feature vector, the scorer's modes and model, the
    feedback store and the training controller.  The scoring functions
    themselves are not modelled: the document fixes neither their floating
    point details nor the classifier. *)

(** *** Segmenter *)

Module Segmenter.

(** Modelled from the spec: the data model's [Section] record (section 3). *)
Record DocSection : Type := {
  id : Z;
  title : string;
  body : string;
  start_offset : nat;
  end_offset : nat;
  page_number : option nat;
  position_index : nat
}.

(** Modelled from the spec: the six pattern classes of section 4.1, in
    priority order. *)
Inductive PatternClass : Type :=
| NumberedHeader
| RomanHeader
| LetteredHeader
| AllCapsLine
| TitleCaseLine
| VisualBreak.

(** Modelled from the spec: "an ordered list of matcher+tiebreak strategy
    objects evaluated in fixed priority order" (section 9), and the
    [MIN_SECTION_LENGTH] setting. *)
Record Config : Type := {
  matchers : list (PatternClass * (string -> bool));
  MIN_SECTION_LENGTH : nat
}.

(** Modelled from the spec: "the first matching pattern class (in the priority
    order above) wins for a given line". *)
Definition classify (cfg : Config) (line : string) : option PatternClass :=
  match List.find (fun m => snd m line) (matchers cfg) with
  | Some m => Some (fst m)
  | None => None
  end.

(** Modelled from the spec: the line separator of the missing segmenter. *)
Definition newline : ascii := "010"%char.

(** Modelled from the spec: the lines of a text, split at every newline (the
    segmenter's source is missing; this is the usual [split] on the
    separator). *)
Fixpoint split_lines (text : string) : list string :=
  match text with
  | EmptyString => [""]
  | String c rest =>
      if Ascii.eqb c newline then "" :: split_lines rest
      else match split_lines rest with
           | l :: ls => String c l :: ls
           | [] => [String c ""]
           end
  end.

(** Modelled from the spec: the text of a run of lines, the inverse of
    [split_lines] (missing segmenter). *)
Fixpoint join_lines (ls : list string) : string :=
  match ls with
  | [] => ""
  | [l] => l
  | l :: rest => l ++ String newline (join_lines rest)
  end.

(** Modelled from the spec: a section while the scan builds it.  [head] is the
    line that opened it with its pattern class; it is [None] only for the
    content that precedes every header. *)
Record Candidate : Type := {
  head : option (string * PatternClass);
  lines : list string;
  start : nat
}.

(** Modelled from the spec: the section the missing segmenter is in before it
    has read a line. *)
Definition opening : Candidate :=
  {| head := None; lines := []; start := 0 |}.

(** Modelled from the spec: the section a header line opens (missing
    segmenter). *)
Definition open_at (line : string) (cls : PatternClass) (offset : nat) : Candidate :=
  {| head := Some (line, cls); lines := []; start := offset |}.

(** Modelled from the spec: "a line matching none of these starts no new
    section and is appended to the current section's body". *)
Definition append_line (c : Candidate) (line : string) : Candidate :=
  {| head := head c; lines := (lines c ++ [line])%list; start := start c |}.

(** Modelled from the spec: nothing has been read yet: the document starts
    with a header. *)
Definition untouched (c : Candidate) : bool :=
  match head c, lines c with
  | None, [] => true
  | _, _ => false
  end.

(** Modelled from the spec: the top-to-bottom scan of section 4.1.  A matching
    line closes the current section and opens the next; [offset] is the
    position of the line in the text. *)
Fixpoint scan (cfg : Config) (ls : list string) (offset : nat)
    (current : Candidate) : list Candidate :=
  match ls with
  | [] => [current]
  | l :: rest =>
      let next := (offset + String.length l + 1)%nat in
      match classify cfg l with
      | Some cls =>
          if untouched current
          then scan cfg rest next (open_at l cls offset)
          else current :: scan cfg rest next (open_at l cls offset)
      | None => scan cfg rest next (append_line current l)
      end
  end.

(** Modelled from the spec: the sections of a text before the minimum-length
    policy (missing segmenter). *)
Definition candidates (cfg : Config) (text : string) : list Candidate :=
  scan cfg (split_lines text) 0 opening.

(** Modelled from the spec: the line that opened a section, if any (missing
    segmenter). *)
Definition head_line (c : Candidate) : list string :=
  match head c with
  | Some (l, _) => [l]
  | None => []
  end.

(** Modelled from the spec: the lines of the text that a section covers,
    opening line included. *)
Definition all_lines (c : Candidate) : list string :=
  (head_line c ++ lines c)%list.

(** Modelled from the spec: the body of a section (missing segmenter): its
    text, from the line that opened it to its last line.  The header line
    counts: the policy compares the "body length" with [MIN_SECTION_LENGTH],
    and the scenario of section 8 keeps "2. Notes" with "See appendix." as a
    section of its own, 22 characters with the header line and 13 without. *)
Definition body_of (c : Candidate) : string := join_lines (all_lines c).

(** Modelled from the spec: a byte that continues a UTF-8 character
    (10xxxxxx); the texts are UTF-8 (missing segmenter). *)
Definition is_continuation (c : ascii) : bool :=
  let n := nat_of_ascii c in (128 <=? n)%nat && (n <? 192)%nat.

(** Modelled from the spec: the length of a text in characters, as the
    "20 characters" of [MIN_SECTION_LENGTH] are counted: every byte that
    starts a UTF-8 character (missing segmenter). *)
Fixpoint char_length (s : string) : nat :=
  match s with
  | EmptyString => 0
  | String c rest => (if is_continuation c then 0 else 1) + char_length rest
  end.


(** Modelled from the spec: merging a section into the preceding one.  Its
    opening line is no longer a boundary: the preceding section's body goes
    on with that line and the lines after it. *)
Definition absorb (preceding c : Candidate) : Candidate :=
  {| head := head preceding;
     lines := (lines preceding ++ head_line c ++ lines c)%list;
     start := start preceding |}.

(** Modelled from the spec: "sections whose body length is below
    [MIN_SECTION_LENGTH] are merged into the preceding section rather than
    emitted standalone".  [preceding] is the last section kept so far. *)
Fixpoint merge_short (cfg : Config) (preceding : Candidate)
    (rest : list Candidate) : list Candidate :=
  match rest with
  | [] => [preceding]
  | c :: rest' =>
      if (char_length (body_of c) <? MIN_SECTION_LENGTH cfg)%nat
      then merge_short cfg (absorb preceding c) rest'
      else preceding :: merge_short cfg c rest'
  end.

(** Modelled from the spec: the minimum-length policy over all sections; the
    first one has no preceding section (missing segmenter). *)
Definition enforce_min_length (cfg : Config) (cs : list Candidate)
  : list Candidate :=
  match cs with
  | [] => []
  | c :: rest => merge_short cfg c rest
  end.

(** Modelled from the spec: "A section's title is the triggering header line
    (or a synthesized placeholder, e.g.  Untitled Section N ...)".  A visual
    break carries no header text, so it gets the placeholder too. *)
Definition title_of (c : Candidate) (index : nat) : string :=
  match head c with
  | Some (_, VisualBreak) | None => "Untitled Section " ++ pretty (S index)
  | Some (l, _) => l
  end.

(** Modelled from the spec: "Page numbers are attached only if the source
    format preserves page-break offsets ...; otherwise left unset". *)
Definition page_of (pages : option (list nat)) (offset : nat) : option nat :=
  match pages with
  | None => None
  | Some breaks =>
      Some (S (List.length (List.filter (fun b => (b <=? offset)%nat) breaks)))
  end.

(** Modelled from the spec: numbering of the kept sections; a section ends
    where the next starts, the last one at the end of the text. *)
Fixpoint number_from (pages : option (list nat)) (text_length : nat)
    (index : nat) (cs : list Candidate) : list DocSection :=
  match cs with
  | [] => []
  | c :: rest =>
      {| id := Z.of_nat (S index);
         title := title_of c index;
         body := body_of c;
         start_offset := start c;
         end_offset := match rest with
                       | [] => text_length
                       | c' :: _ => start c'
                       end;
         page_number := page_of pages (start c);
         position_index := index |}
      :: number_from pages text_length (S index) rest
  end.

(** Modelled from the spec: [segment(normalized_text)], with the optional
    page-break offsets of the text-extraction collaborator. *)
Definition segment (cfg : Config) (text : string) (pages : option (list nat))
  : list DocSection :=
  number_from pages (String.length text) 0
    (enforce_min_length cfg (candidates cfg text)).

(** **** The default pattern matchers *)

(** Modelled from the spec: a decimal digit (matchers of the missing
    segmenter). *)
Definition is_digit (c : ascii) : bool :=
  match Ascii.is_nat c with Some _ => true | None => false end.

(** Modelled from the spec: a capital letter (matchers of the missing
    segmenter). *)
Definition is_upper (c : ascii) : bool :=
  let n := nat_of_ascii c in (65 <=? n)%nat && (n <=? 90)%nat.

(** Modelled from the spec: a small letter (matchers of the missing
    segmenter). *)
Definition is_lower (c : ascii) : bool :=
  let n := nat_of_ascii c in (97 <=? n)%nat && (n <=? 122)%nat.

(** Modelled from the spec: a roman digit (matchers of the missing segmenter).
    *)
Definition is_roman_digit (c : ascii) : bool :=
  existsb (Ascii.eqb c) ["I"; "V"; "X"; "L"; "C"; "D"; "M"]%char.

(** Modelled from the spec: a header prefix ends at the end of the line or at
    white space (matchers of the missing segmenter). *)
Definition ends_header (rest : string) : bool :=
  match rest with
  | EmptyString => true
  | String c _ => Ascii.is_space c
  end.

(** Modelled from the spec: [1.], [1.1.], [1.1.1.], ...: groups of digits,
    each closed by a dot. *)
Fixpoint numbered_go (s : string) (in_group closed_group : bool) : bool :=
  match s with
  | EmptyString => closed_group && negb in_group
  | String c rest =>
      if is_digit c then numbered_go rest true closed_group
      else if Ascii.eqb c "."%char then in_group && numbered_go rest false true
      else Ascii.is_space c && closed_group && negb in_group
  end.

(** Modelled from the spec: pattern class 1 of the missing segmenter, numbered
    headers. *)
Definition is_numbered_header (line : string) : bool := numbered_go line false false.

(** Modelled from the spec: [I.], [II.], ...: roman digits closed by a dot. *)
Fixpoint roman_go (s : string) (seen : bool) : bool :=
  match s with
  | EmptyString => false
  | String c rest =>
      if is_roman_digit c then roman_go rest true
      else Ascii.eqb c "."%char && seen && ends_header rest
  end.

(** Modelled from the spec: pattern class 2 of the missing segmenter,
    roman-numeral headers. *)
Definition is_roman_header (line : string) : bool := roman_go line false.

(** Modelled from the spec: [A.], [B.], ...: one capital letter closed by a
    dot. *)
Definition is_lettered_header (line : string) : bool :=
  match line with
  | String c (String d rest) => is_upper c && Ascii.eqb d "."%char && ends_header rest
  | _ => false
  end.

(** Modelled from the spec: some character of the string satisfies [p]
    (matchers of the missing segmenter). *)
Fixpoint string_exists (p : ascii -> bool) (s : string) : bool :=
  match s with
  | EmptyString => false
  | String c rest => p c || string_exists p rest
  end.

(** Modelled from the spec: a short line (at most 80 characters) with capitals
    and no small letter. *)
Definition is_all_caps (line : string) : bool :=
  (String.length line <=? 80)%nat && string_exists is_upper line
  && negb (string_exists is_lower line).

(** Modelled from the spec: the last character of a line (matchers of the
    missing segmenter). *)
Fixpoint last_char (s : string) : option ascii :=
  match s with
  | EmptyString => None
  | String c EmptyString => Some c
  | String _ rest => last_char rest
  end.

(** Modelled from the spec: a capitalised word (matchers of the missing
    segmenter). *)
Definition starts_upper (word : string) : bool :=
  match word with
  | String c _ => is_upper c
  | EmptyString => false
  end.

(** Modelled from the spec: a few words (at most eight), each capitalised, no
    terminal punctuation. *)
Definition is_title_case (line : string) : bool :=
  let ws := String.words line in
  negb (Nat.eqb (List.length ws) 0) && (List.length ws <=? 8)%nat
  && forallb starts_upper ws
  && match last_char line with
     | Some c => negb (existsb (Ascii.eqb c) ["."; "!"; "?"; ":"; ";"; ","]%char)
     | None => false
     end.

(** Modelled from the spec: a form feed in the line. *)
Definition is_visual_break (line : string) : bool :=
  string_exists (Ascii.eqb "012"%char) line.

(** Modelled from the spec: the six matchers of the missing segmenter in
    priority order. *)
Definition default_matchers : list (PatternClass * (string -> bool)) :=
  [ (NumberedHeader, is_numbered_header);
    (RomanHeader, is_roman_header);
    (LetteredHeader, is_lettered_header);
    (AllCapsLine, is_all_caps);
    (TitleCaseLine, is_title_case);
    (VisualBreak, is_visual_break) ].

(** Modelled from the spec: the missing segmenter with its default setting,
    [MIN_SECTION_LENGTH] = 20. *)
Definition default_config : Config :=
  {| matchers := default_matchers; MIN_SECTION_LENGTH := 20 |}.

End Segmenter.

(** *** FeatureExtractor *)

Module FeatureExtractor.

(** Modelled from the spec: the fixed length of every feature vector (the
    feature extractor is missing), one slot for each of the "fixed, named
    slots" of section 4.2: word count; sentence count; character density;
    digit-bearing tokens; currency/percentage patterns; date-like patterns;
    named entities of the categories person, organization, location and
    date, "each its own slot"; structural markers; normalized position;
    normalized title length. *)
Definition FEATURE_COUNT : nat := 13.

End FeatureExtractor.

(** *** RelevanceScorer *)

Module RelevanceScorer.

(** Modelled from the spec: the two states of section 4.3. *)
Inductive Mode : Type :=
| HEURISTIC
| LEARNED.

(** Modelled from the spec: the classifier library behind the learned mode.
    [Fitted] is a fitted classifier with the normalisation parameters captured
    at fit time; [predict_proba] is its "predicted positive-class
    probability", a probability by the library's contract. *)
Class Learner : Type := {
  Fitted : Type;
  fit : list (list Q * bool) -> Fitted;
  predict_proba : Fitted -> list Q -> Q;
  predict_proba_range : forall (m : Fitted) (v : list Q),
    (0 <= predict_proba m v)%Q /\ (predict_proba m v <= 1)%Q
}.

(** Modelled from the spec: [ScorerModel], "untrained" or "trained". *)
Inductive ScorerModel `{Learner} : Type :=
| Untrained
| Trained (fitted : Fitted).

(** Modelled from the spec: [current_mode()]. *)
Definition current_mode `{Learner} (model : ScorerModel) : Mode :=
  match model with
  | Untrained => HEURISTIC
  | Trained _ => LEARNED
  end.

(** Modelled from the spec: the shape test of the missing scorer: the vector
    has [FEATURE_COUNT] slots. *)
Definition well_shaped (v : list Q) : bool :=
  Nat.eqb (List.length v) FeatureExtractor.FEATURE_COUNT.

End RelevanceScorer.

(** *** FeedbackStore *)

Module FeedbackStore.

(** Modelled from the spec: the [FeedbackRecord] of section 3. *)
Record FeedbackRecord : Type := {
  section_id : Z;
  document_id : string;
  feature_vector : list Q;
  is_relevant : bool;
  timestamp : Z
}.

(** Modelled from the spec: what makes two feedback records "identical": the
    section (within its document) and the label. *)
Definition feedback_key (r : FeedbackRecord) : Z * string * bool :=
  (section_id r, document_id r, is_relevant r).

(** Modelled from the spec: the same label for the same section (of the same
    document). *)
Definition same_feedback (a b : FeedbackRecord) : bool :=
  Z.eqb (section_id a) (section_id b)
  && String.eqb (document_id a) (document_id b)
  && Bool.eqb (is_relevant a) (is_relevant b).

(** Modelled from the spec: the duplicate test of the missing feedback store.
    *)
Definition already_recorded (fb : FeedbackRecord) (store : list FeedbackRecord) : bool :=
  existsb (same_feedback fb) store.

(** Modelled from the spec: how [record] ended; neither is an error. *)
Inductive Recorded : Type :=
| Appended
| DuplicateIgnored.

(** Modelled from the spec: [record(feedback)], "appends a FeedbackRecord;
    idempotent rejection (no error, no duplicate insert) if an identical
    (section_id, is_relevant) pair already exists for that section". *)
Definition record (fb : FeedbackRecord) (store : list FeedbackRecord)
  : list FeedbackRecord * Recorded :=
  if already_recorded fb store then (store, DuplicateIgnored)
  else ((store ++ [fb])%list, Appended).

(** Modelled from the spec: the accumulated count that the retrain trigger
    reads. *)
Definition count (store : list FeedbackRecord) : nat := List.length store.

End FeedbackStore.

(** *** TrainingController *)

Module TrainingController.
Import RelevanceScorer FeedbackStore.

(** Modelled from the spec: the constant [RETRAIN_THRESHOLD] (10) of the
    missing training controller. *)
Definition RETRAIN_THRESHOLD : nat := 10.

(** Modelled from the spec: the two process-wide resources, the feedback log
    and the active model. *)
Record Core `{Learner} : Type := {
  store : list FeedbackRecord;
  model : ScorerModel
}.

(** Modelled from the spec: the state of the missing core at start: an empty
    log and an untrained model. *)
Definition initial `{Learner} : Core := {| store := []; model := Untrained |}.

(** Modelled from the spec: the error taxonomy's [TrainingError],
    "insufficient class diversity", and the rejected "mismatched feature
    shape". *)
Inductive TrainingError : Type :=
| SingleClass
| ShapeMismatch.

(** Modelled from the spec: the "(feature_vector, is_relevant) set" handed to
    the fit (missing training controller). *)
Definition training_set (store : list FeedbackRecord) : list (list Q * bool) :=
  List.map (fun r => (feature_vector r, is_relevant r)) store.

(** Modelled from the spec: some record of the log carries the label (missing
    training controller). *)
Definition has_label (label : bool) (store : list FeedbackRecord) : bool :=
  existsb (fun r => Bool.eqb (is_relevant r) label) store.

(** Modelled from the spec: the fit "on the entire accumulated
    (feature_vector, is_relevant) set", failing on a single-class set. *)
Definition try_fit `{Learner} (store : list FeedbackRecord) : TrainingError + Fitted :=
  if negb (forallb (fun r => well_shaped (feature_vector r)) store) then inl ShapeMismatch
  else if has_label true store && has_label false store
  then inr (fit (training_set store))
  else inl SingleClass.

(** Modelled from the spec: "count is a nonzero multiple of RETRAIN_THRESHOLD"
    *)
Definition at_boundary (n : nat) : bool :=
  negb (Nat.eqb n 0) && Nat.eqb (n mod RETRAIN_THRESHOLD) 0.

(** Modelled from the spec: [maybe_retrain() -> bool].  A failed fit leaves
    the scorer in its previous state. *)
Definition maybe_retrain `{Learner} (core : Core) : Core * bool :=
  if at_boundary (count (store core)) then
    match try_fit (store core) with
    | inr fitted => ({| store := store core; model := Trained fitted |}, true)
    | inl _ => (core, false)
    end
  else (core, false).

(** Modelled from the spec: [submit_feedback]: [record], then [maybe_retrain]
    "invoked after every record".  The result is the new state, whether the
    record was appended, and whether a model was fitted. *)
Definition submit_feedback `{Learner} (core : Core) (fb : FeedbackRecord)
  : Core * Recorded * bool :=
  let '(store', outcome) := record fb (store core) in
  let '(core', retrained) := maybe_retrain {| store := store'; model := model core |} in
  (core', outcome, retrained).

(** Modelled from the spec: the state after one [submit_feedback] (missing
    training controller). *)
Definition after `{Learner} (core : Core) (fb : FeedbackRecord) : Core :=
  fst (fst (submit_feedback core fb)).

(** Modelled from the spec: the state after a sequence of submissions (missing
    training controller). *)
Definition run `{Learner} (core : Core) (fbs : list FeedbackRecord) : Core :=
  fold_left after fbs core.

(** Modelled from the spec: [current_mode()] of a state of the missing core.
    *)
Definition mode_of `{Learner} (core : Core) : Mode := current_mode (model core).

(** Modelled from the spec: equality of modes. *)
Definition mode_eqb (a b : Mode) : bool :=
  match a, b with
  | HEURISTIC, HEURISTIC | LEARNED, LEARNED => true
  | _, _ => false
  end.

(** Modelled from the spec: the number of steps of a run at which
    [current_mode()] changes. *)
Fixpoint mode_changes `{Learner} (core : Core) (fbs : list FeedbackRecord) : nat :=
  match fbs with
  | [] => 0
  | fb :: rest =>
      (if mode_eqb (mode_of core) (mode_of (after core fb)) then 0 else 1)
      + mode_changes (after core fb) rest
  end.

(** Modelled from the spec: the [maybe_retrain] results along a run. *)
Fixpoint retrain_flags `{Learner} (core : Core) (fbs : list FeedbackRecord) : list bool :=
  match fbs with
  | [] => []
  | fb :: rest => snd (submit_feedback core fb) :: retrain_flags (after core fb) rest
  end.

(** Modelled from the spec: a learner to run the model with: a majority vote.
    It remembers which label is more frequent in its training set and predicts
    it for every vector. *)
Definition majority (data : list (list Q * bool)) : bool :=
  (List.length data <=? 2 * List.length (List.filter snd data))%nat.

(** Modelled from the spec: a stand-in for the classifier library, to run the
    missing core with. *)
Definition majority_learner : Learner.
Proof.
  refine {| Fitted := bool;
            fit := majority;
            predict_proba := fun m _ => if m then 1%Q else 0%Q |}.
  intros [] _; split; discriminate.
Defined.

End TrainingController.

(** ** Sample inputs *)

Module Samples.

Definition report_pdf : DocumentUpload.File :=
  {| DocumentUpload.file_name := "report.pdf";
     DocumentUpload.file_type := "application/pdf" |}.

Definition notes_txt : DocumentUpload.File :=
  {| DocumentUpload.file_name := "notes.txt";
     DocumentUpload.file_type := "text/plain" |}.

Definition empty_document (documentId : string) : SectionDisplay.Document :=
  {| SectionDisplay.document_id := documentId;
     SectionDisplay.document_name := documentId;
     SectionDisplay.total_sections := 0;
     SectionDisplay.sections := [];
     SectionDisplay.processing_time := None |}.

(** A server that accepts every request. *)
Definition obliging_api : DocumentUpload.Api :=
  {| DocumentUpload.uploadDocument := fun file _ =>
       Resolved {| DocumentUpload.document_id := DocumentUpload.file_name file |};
     DocumentUpload.uploadBatch := fun files _ =>
       Resolved {| DocumentUpload.document_ids :=
                     List.map DocumentUpload.file_name files |};
     DocumentUpload.getDocument := fun documentId =>
       Resolved (empty_document documentId) |}.

(** The cards of section 1 and section 2 of document "d" are expanded. *)
Definition expand_both : list SectionDisplay.Event :=
  [ SectionDisplay.ClickSection "d" 1;
    SectionDisplay.ClickSection "d" 2 ].

(** "Yes" is clicked on both before either request has settled. *)
Definition click_both : list SectionDisplay.Event :=
  [ SectionDisplay.ClickFeedback "d" 1 true;
    SectionDisplay.ClickFeedback "d" 2 true ].

Definition feedback_on (sectionId : Z) (label : bool) : FeedbackStore.FeedbackRecord :=
  {| FeedbackStore.section_id := sectionId;
     FeedbackStore.document_id := "d";
     FeedbackStore.feature_vector := List.repeat (inject_Z sectionId) 13;
     FeedbackStore.is_relevant := label;
     FeedbackStore.timestamp := sectionId |}.

(** Ten records on ten sections, six positive and four negative. *)
Definition six_and_four : list FeedbackStore.FeedbackRecord :=
  [ feedback_on 1 true; feedback_on 2 true; feedback_on 3 false;
    feedback_on 4 true; feedback_on 5 false; feedback_on 6 true;
    feedback_on 7 false; feedback_on 8 true; feedback_on 9 false;
    feedback_on 10 true ].

Definition scored (sectionId : Z) (score : float) : SectionDisplay.ScoredSection :=
  {| SectionDisplay.section_id := sectionId;
     SectionDisplay.title := "Section " ++ pretty sectionId;
     SectionDisplay.page_number := None;
     SectionDisplay.tags := None;
     SectionDisplay.relevance_score := score;
     SectionDisplay.content := "" |}.

(** A document with one section in each band and one whose score is not a
    number. *)
Definition quarterly_report : SectionDisplay.Document :=
  {| SectionDisplay.document_id := "d";
     SectionDisplay.document_name := "report.pdf";
     SectionDisplay.total_sections := 4;
     SectionDisplay.sections :=
       [scored 1 0.9; scored 2 0.55; scored 3 0.2; scored 4 PrimFloat.nan];
     SectionDisplay.processing_time := None |}.

(** The text of the first scenario of the design document's section 8. *)
Definition two_headers : string :=
  Segmenter.join_lines
    [ "1. Introduction";
      "This report contains 45% growth and $2M revenue.";
      "2. Notes";
      "See appendix." ].


(** A server whose store holds document "a" but not document "b". *)
Definition partial_api : DocumentUpload.Api :=
  {| DocumentUpload.uploadDocument := fun file _ =>
       Resolved {| DocumentUpload.document_id := "a" |};
     DocumentUpload.uploadBatch := fun files _ =>
       Resolved {| DocumentUpload.document_ids := ["a"; "b"; "a"] |};
     DocumentUpload.getDocument := fun documentId =>
       if String.eqb documentId "a" then Resolved (empty_document "a")
       else Rejected "Document not found" |}.

(** A server that refuses every upload. *)
Definition refusing_api : DocumentUpload.Api :=
  {| DocumentUpload.uploadDocument := fun _ _ => Rejected "Unsupported file type";
     DocumentUpload.uploadBatch := fun _ _ => Rejected "Unsupported file type";
     DocumentUpload.getDocument := fun documentId =>
       Resolved (empty_document documentId) |}.

End Samples.

(* ===================================================================== *)
(** * Part II -- properties                                               *)
(* ===================================================================== *)

(** ** Comparisons of binary64 numbers *)

Section Binary64.

Lemma SFcompare_swap (a b : SpecFloat.spec_float) :
  SpecFloat.SFcompare b a = option_map CompOpp (SpecFloat.SFcompare a b).
Proof.
  destruct a as [sa|sa| |sa ma ea], b as [sb|sb| |sb mb eb]; simpl;
    try reflexivity; try (destruct sa; reflexivity); try (destruct sb; reflexivity);
    try (destruct sa, sb; reflexivity).
  destruct sa, sb; simpl; try reflexivity;
    rewrite (Z.compare_antisym ea eb);
    destruct (ea ?= eb)%Z; simpl; try reflexivity;
    rewrite (Pos.compare_cont_antisym ma mb Eq); simpl;
    try rewrite CompOpp_involutive; reflexivity.
Qed.

Lemma number_compare (x y : float) :
  SectionDisplay.is_number x -> SectionDisplay.is_number y ->
  exists c, SpecFloat.SFcompare (Prim2SF x) (Prim2SF y) = Some c.
Proof.
  unfold SectionDisplay.is_number, PrimFloat.is_nan. intros Hx Hy.
  apply negb_false_iff in Hx, Hy.
  rewrite FloatAxioms.eqb_spec in Hx, Hy. unfold SpecFloat.SFeqb in Hx, Hy.
  destruct (Prim2SF x), (Prim2SF y); simpl in *; try discriminate; eauto.
Qed.

Lemma js_lt_not_ge (a b : float) :
  SectionDisplay.js_lt a b = true -> SectionDisplay.js_ge a b = false.
Proof.
  unfold SectionDisplay.js_lt, SectionDisplay.js_ge.
  rewrite FloatAxioms.ltb_spec, FloatAxioms.leb_spec. unfold SpecFloat.SFltb, SpecFloat.SFleb.
  rewrite (SFcompare_swap (Prim2SF a) (Prim2SF b)).
  destruct (SpecFloat.SFcompare (Prim2SF a) (Prim2SF b)) as [[]|]; simpl; congruence.
Qed.

Lemma js_not_ge_lt (a b : float) :
  SectionDisplay.is_number a -> SectionDisplay.is_number b ->
  SectionDisplay.js_ge a b = false -> SectionDisplay.js_lt a b = true.
Proof.
  intros Ha Hb. destruct (number_compare a b Ha Hb) as [c Hc].
  unfold SectionDisplay.js_lt, SectionDisplay.js_ge.
  rewrite FloatAxioms.ltb_spec, FloatAxioms.leb_spec. unfold SpecFloat.SFltb, SpecFloat.SFleb.
  rewrite (SFcompare_swap (Prim2SF a) (Prim2SF b)), Hc.
  destruct c; simpl; congruence.
Qed.

Lemma js_ge_number (a b : float) :
  SectionDisplay.js_ge a b = true -> SectionDisplay.is_number a.
Proof.
  unfold SectionDisplay.js_ge, SectionDisplay.is_number, PrimFloat.is_nan.
  rewrite FloatAxioms.leb_spec, FloatAxioms.eqb_spec. unfold SpecFloat.SFleb, SpecFloat.SFeqb.
  destruct (Prim2SF a) as [s|s| |s m e], (Prim2SF b); simpl; try discriminate;
    intros _; try reflexivity; try (destruct s; reflexivity).
  - destruct s; simpl; rewrite Z.compare_refl, Pos.compare_cont_refl; reflexivity.
  - destruct s; simpl; rewrite Z.compare_refl, Pos.compare_cont_refl; reflexivity.
  - destruct s; simpl; rewrite Z.compare_refl, Pos.compare_cont_refl; reflexivity.
Qed.

End Binary64.

(** ** SectionDisplay: the threshold filter and the score bands *)

Section DisplayFacts.
Import SectionDisplay.

Lemma filteredSections_In (threshold : float) (doc : Document) (s : ScoredSection) :
  In s (filteredSections threshold doc) <->
  In s (sections doc) /\ js_ge (relevance_score s) threshold = true.
Proof. unfold filteredSections. apply filter_In. Qed.

Lemma renderDocument_cards (trainingMode : bool) (threshold : float)
    (expanded given : gset string) (doc : Document) :
  List.map card_section (view_cards (renderDocument trainingMode threshold expanded given doc))
  = filteredSections threshold doc.
Proof.
  unfold renderDocument; simpl. rewrite List.map_map; simpl. apply List.map_id.
Qed.

Lemma js_ge_high_medium (score : float) :
  js_ge score 0.7 = true -> js_ge score 0.4 = true.
Proof.
  unfold js_ge. rewrite !FloatAxioms.leb_spec.
  replace (Prim2SF 0.7) with (SpecFloat.S754_finite false 6305039478318694 (-53))
    by (vm_compute; reflexivity).
  replace (Prim2SF 0.4) with (SpecFloat.S754_finite false 7205759403792794 (-54))
    by (vm_compute; reflexivity).
  unfold SpecFloat.SFleb.
  destruct (Prim2SF score) as [s|s| |s m e]; cbn -[Z.compare Pos.compare_cont];
    try (intros; assumption).
  destruct s; [intros; assumption |].
  destruct (Z.compare_spec (-53) e) as [He|He|He]; try discriminate.
  - subst e. intros _. reflexivity.
  - intros _. destruct (Z.compare_spec (-54) e) as [He'|He'|He']; try reflexivity; lia.
Qed.


(** C1.  For every document of the result and every threshold, the number
    shown after "Relevant:" and the number shown in "Showing N sections" are
    both the length of the list of the document's sections whose
    [relevance_score] is [>=] the threshold, and the cards rendered are
    exactly those sections, in the document's order. *)
Theorem relevant_count_is_filter_length (trainingMode : bool) (threshold : float)
    (expanded given : gset string) (doc : Document) :
  let view := renderDocument trainingMode threshold expanded given doc in
  let relevant :=
    List.filter (fun s => PrimFloat.leb threshold (relevance_score s)) (sections doc) in
  view_relevant view = List.length relevant
  /\ view_showing view = List.length relevant
  /\ List.map card_section (view_cards view) = relevant
  /\ (forall s, In s (List.map card_section (view_cards view)) <->
                In s (sections doc) /\ PrimFloat.leb threshold (relevance_score s) = true)
  /\ (view_empty_notice view = true <-> relevant = []).
Proof.
  intros view relevant.
  assert (Hcards : List.map card_section (view_cards view) = relevant)
    by apply renderDocument_cards.
  split; [reflexivity |]. split; [reflexivity |]. split; [exact Hcards |]. split.
  - intros s. rewrite Hcards. apply filter_In.
  - change (view_empty_notice view) with (Nat.eqb (List.length relevant) 0).
    rewrite Nat.eqb_eq. destruct relevant; simpl; split; congruence.
Qed.

Lemma getScoreClass_cases (score : float) :
  (js_ge score 0.7 = true /\ getScoreClass score = "high"
     /\ getScoreColor score = "text-emerald-400")
  \/ (js_ge score 0.7 = false /\ js_ge score 0.4 = true
     /\ getScoreClass score = "medium" /\ getScoreColor score = "text-yellow-400")
  \/ (js_ge score 0.7 = false /\ js_ge score 0.4 = false
     /\ getScoreClass score = "low" /\ getScoreColor score = "text-red-400").
Proof.
  unfold getScoreClass, getScoreColor.
  destruct (js_ge score 0.7) eqn:H7; [left; auto |].
  destruct (js_ge score 0.4) eqn:H4; [right; left; auto | right; right; auto].
Qed.

Lemma band_bounds_are_numbers : is_number 0.7%float /\ is_number 0.4%float.
Proof. split; vm_compute; reflexivity. Qed.

(** C8.  For every score, the band class and the band colour name the same
    band: "high" goes with "text-emerald-400" and is the band [score >= 0.7];
    "medium" goes with "text-yellow-400" and is the band
    [0.4 <= score < 0.7]; "low" goes with "text-red-400" and, for a score
    that is a number, is the band [score < 0.4]. *)
Theorem score_class_and_color_agree (score : float) :
  ((getScoreClass score = "high" <-> getScoreColor score = "text-emerald-400")
   /\ (getScoreClass score = "high" <-> js_ge score 0.7 = true))
  /\ ((getScoreClass score = "medium" <-> getScoreColor score = "text-yellow-400")
      /\ (getScoreClass score = "medium" <->
          js_ge score 0.4 = true /\ js_lt score 0.7 = true))
  /\ ((getScoreClass score = "low" <-> getScoreColor score = "text-red-400")
      /\ (is_number score ->
          (getScoreClass score = "low" <-> js_lt score 0.4 = true))).
Proof.
  destruct band_bounds_are_numbers as [N7 N4].
  destruct (getScoreClass_cases score)
    as [(G7 & C & K) | [(G7 & G4 & C & K) | (G7 & G4 & C & K)]];
    rewrite C, K.
  - pose proof (js_ge_high_medium score G7) as G4.
    split; [split; split; auto |].
    split; [split; split; try discriminate |].
    + intros [_ H]. apply js_lt_not_ge in H. congruence.
    + split; [split; discriminate |]. intros _. split; [discriminate |].
      intros H. apply js_lt_not_ge in H. congruence.
  - pose proof (js_ge_number score _ G4) as N.
    split; [split; split; try discriminate; congruence |].
    split; [split; split; auto |].
    + intros _. split; [assumption |]. apply js_not_ge_lt; assumption.
    + split; [split; discriminate |]. intros _. split; [discriminate |].
      intros H. apply js_lt_not_ge in H. congruence.
  - split; [split; split; try discriminate; congruence |].
    split; [split; split; try discriminate |].
    + intros [H _]. congruence.
    + split; [split; auto |]. intros N. split; auto.
      intros _. apply js_not_ge_lt; assumption.
Qed.

Example getScoreClass_at_bounds :
  getScoreClass 0.7 = "high" /\ getScoreClass 0.69 = "medium"
  /\ getScoreClass 0.4 = "medium" /\ getScoreClass 0.39 = "low"
  /\ getScoreClass PrimFloat.nan = "low" /\ getScoreColor PrimFloat.nan = "text-red-400".
Proof. repeat split; vm_compute; reflexivity. Qed.

(** The bands at 0.25, a number of the low band. *)
Lemma score_class_and_color_agree_witness :
  is_number 0.25%float
  /\ (getScoreClass 0.25 = "low" <-> js_lt 0.25 0.4 = true).
Proof.
  split; [vm_compute; reflexivity |].
  apply (proj2 (proj2 (proj2 (score_class_and_color_agree 0.25%float)))).
  vm_compute; reflexivity.
Defined.

End DisplayFacts.

(** ** DocumentUpload: which endpoint receives the files *)

Section UploadFacts.
Import DocumentUpload.

Variable api : Api.

Lemma uploads_app (l1 l2 : list Effect) :
  uploads (l1 ++ l2) = (uploads l1 ++ uploads l2)%list.
Proof. unfold uploads. apply List.filter_app. Qed.

Lemma promise_all_no_upload (ids : list string) :
  uploads (fst (promise_all_getDocument api ids)) = [].
Proof.
  induction ids as [|id rest IH]; simpl; [reflexivity |].
  destruct (promise_all_getDocument api rest) as [log r]; simpl in IH.
  destruct (getDocument api id), r; simpl; exact IH.
Qed.

Lemma onDrop_catch_no_upload (r : Settled unit) : uploads (onDrop_catch r) = [].
Proof. destruct r; reflexivity. Qed.

Lemma onDrop_try_uploads (batchMode : bool) (threshold : float)
    (acceptedFiles : list File) (first : File) :
  uploads (fst (onDrop_try api batchMode threshold acceptedFiles first))
  = if batchMode && (1 <? List.length acceptedFiles)%nat
    then [PostBatch acceptedFiles threshold]
    else [PostUpload first threshold].
Proof.
  unfold onDrop_try.
  destruct (batchMode && (1 <? List.length acceptedFiles)%nat).
  - unfold await, bind, emit.
    destruct (uploadBatch api acceptedFiles threshold) as [result|error]; [| reflexivity].
    pose proof (promise_all_no_upload (document_ids result)) as Hall.
    destruct (promise_all_getDocument api (document_ids result)) as [log [docs|error]];
      simpl in *; rewrite ?uploads_app, ?Hall; reflexivity.
  - unfold await, bind, emit.
    destruct (uploadDocument api first threshold) as [result|error]; [| reflexivity].
    destruct (getDocument api (document_id result)); reflexivity.
Qed.

Lemma onDrop_uploads (batchMode : bool) (threshold : float) (acceptedFiles : list File) :
  uploads (onDrop api batchMode threshold acceptedFiles)
  = match acceptedFiles with
    | [] => []
    | first :: _ =>
        if batchMode && (1 <? List.length acceptedFiles)%nat
        then [PostBatch acceptedFiles threshold]
        else [PostUpload first threshold]
    end.
Proof.
  destruct acceptedFiles as [|first rest]; [reflexivity |].
  unfold onDrop.
  pose proof (onDrop_try_uploads batchMode threshold (first :: rest) first) as Htry.
  destruct (onDrop_try api batchMode threshold (first :: rest) first) as [log r].
  simpl in Htry.
  rewrite !uploads_app, Htry, onDrop_catch_no_upload.
  change (uploads [SetUploading true]) with (@nil Effect).
  change (uploads [SetUploading false]) with (@nil Effect).
  simpl. apply List.app_nil_r.
Qed.

Lemma uploads_In (e : Effect) (log : list Effect) :
  In e (uploads log) <-> In e log /\ is_upload e = true.
Proof. unfold uploads. apply filter_In. Qed.

(** C9.  The batch endpoint is used only when batch mode is enabled and more
    than one file was accepted (and then it receives all of them).  With
    batch mode enabled and exactly one file the single-document endpoint is
    used; with batch mode disabled only the first accepted file is uploaded,
    whatever follows it; an empty list performs no upload and nothing else. *)
Theorem onDrop_endpoint_choice (batchMode : bool) (threshold : float)
    (acceptedFiles : list File) :
  let log := onDrop api batchMode threshold acceptedFiles in
  (forall files t, In (PostBatch files t) log ->
     batchMode = true /\ 1 < List.length acceptedFiles
     /\ files = acceptedFiles /\ t = threshold)
  /\ (batchMode = true -> 1 < List.length acceptedFiles ->
      uploads log = [PostBatch acceptedFiles threshold])
  /\ (batchMode = true -> forall file, acceptedFiles = [file] ->
      uploads log = [PostUpload file threshold])
  /\ (batchMode = false -> forall first others, acceptedFiles = first :: others ->
      uploads log = [PostUpload first threshold])
  /\ (acceptedFiles = [] -> log = []).
Proof.
  intros log.
  pose proof (onDrop_uploads batchMode threshold acceptedFiles) as Hup.
  fold log in Hup.
  split; [| split; [| split; [| split]]].
  - intros files t Hin.
    assert (Hin' : In (PostBatch files t) (uploads log))
      by (apply uploads_In; split; [exact Hin | reflexivity]).
    rewrite Hup in Hin'.
    destruct acceptedFiles as [|first rest]; [destruct Hin' |].
    destruct batchMode; simpl in Hin'.
    + destruct rest as [|second rest']; simpl in Hin'.
      * destruct Hin' as [H | []]; discriminate.
      * destruct Hin' as [H | []]. inversion H; subst.
        repeat split; simpl; lia.
    + destruct Hin' as [H | []]; discriminate.
  - intros -> Hlen. rewrite Hup.
    destruct acceptedFiles as [|first [|second rest]]; simpl in Hlen; try lia.
    reflexivity.
  - intros -> file ->. rewrite Hup. reflexivity.
  - intros -> first others ->. rewrite Hup. reflexivity.
  - intros ->. reflexivity.
Qed.

End UploadFacts.

(** The four cases of [onDrop] on two sample files and an obliging server. *)
Lemma onDrop_endpoint_choice_witness :
  let files := [Samples.report_pdf; Samples.notes_txt] in
  (1 < List.length files
   /\ DocumentUpload.uploads (DocumentUpload.onDrop Samples.obliging_api true 0.5 files)
      = [DocumentUpload.PostBatch files 0.5])
  /\ DocumentUpload.uploads
       (DocumentUpload.onDrop Samples.obliging_api true 0.5 [Samples.report_pdf])
     = [DocumentUpload.PostUpload Samples.report_pdf 0.5]
  /\ DocumentUpload.uploads (DocumentUpload.onDrop Samples.obliging_api false 0.5 files)
     = [DocumentUpload.PostUpload Samples.report_pdf 0.5]
  /\ DocumentUpload.onDrop Samples.obliging_api false 0.5 [] = [].
Proof.
  intros files. split; [split; [simpl; lia |] | split; [| split]].
  - apply (proj1 (proj2 (onDrop_endpoint_choice Samples.obliging_api true 0.5 files)));
      [reflexivity | simpl; lia].
  - apply (proj1 (proj2 (proj2
      (onDrop_endpoint_choice Samples.obliging_api true 0.5 [Samples.report_pdf]))));
      reflexivity.
  - apply (proj1 (proj2 (proj2 (proj2
      (onDrop_endpoint_choice Samples.obliging_api false 0.5 files))))
      eq_refl Samples.report_pdf [Samples.notes_txt]).
    reflexivity.
  - apply (proj2 (proj2 (proj2 (proj2
      (onDrop_endpoint_choice Samples.obliging_api false 0.5 []))))).
    reflexivity.
Defined.

(** ** SectionDisplay: feedback and the [feedbackGiven] set *)

Section FeedbackFacts.
Import SectionDisplay.

(** One call of [handleFeedback]: a rejection makes no state update and
    logs the error; a success asks for the captured set plus the one key. *)
Lemma handleFeedback_outcomes (given : gset string) (docId : string)
    (sectionId : Z) (isRelevant : bool) :
  (forall error, fst (handleFeedback given docId sectionId isRelevant (Rejected error)) = None)
  /\ fst (handleFeedback given docId sectionId isRelevant (Resolved tt))
     = Some (given ∪ {[ key docId sectionId ]}).
Proof. split; reflexivity. Qed.

(** A rejected request changes neither [feedbackGiven] nor what is expanded:
    the prompt of every card is as it was. *)
Lemma rejected_feedback_changes_nothing (st : State) (i : nat) (error : string) :
  let st' := step st (SettleFeedback i (Rejected error)) in
  feedbackGiven st' = feedbackGiven st
  /\ expandedSections st' = expandedSections st
  /\ forall trainingMode k,
       promptShown trainingMode (expandedSections st') (feedbackGiven st') k
       = promptShown trainingMode (expandedSections st) (feedbackGiven st) k.
Proof.
  simpl. destruct (inflight st !! i); simpl; auto.
Qed.

(** A resolved request stores the set its handler captured, plus its key. *)
Lemma resolved_feedback_writes_captured (st : State) (i : nat) (p : PendingFeedback) :
  inflight st !! i = Some p ->
  feedbackGiven (step st (SettleFeedback i (Resolved tt)))
  = pending_feedbackGiven p
    ∪ {[ key (req_document_id (pending_request p)) (req_section_id (pending_request p)) ]}.
Proof. simpl. intros ->. reflexivity. Qed.

(** A submission that settles before anything else happens adds exactly its
    key, and the prompt of that card is gone. *)
Lemma lone_feedback_adds_its_key (st : State) (docId : string) (sectionId : Z)
    (isRelevant trainingMode : bool) :
  inflight st = [] ->
  let st' := run st [ClickFeedback docId sectionId isRelevant;
                     SettleFeedback 0 (Resolved tt)] in
  feedbackGiven st' = feedbackGiven st ∪ {[ key docId sectionId ]}
  /\ promptShown trainingMode (expandedSections st') (feedbackGiven st')
       (key docId sectionId) = false.
Proof.
  intros Hnone st'. subst st'. unfold run; simpl. rewrite Hnone; simpl.
  split; [reflexivity |].
  unfold promptShown.
  rewrite (bool_decide_eq_true_2 (key docId sectionId ∈ feedbackGiven st ∪ {[key docId sectionId]}))
    by set_solver.
  simpl. rewrite andb_false_r, andb_false_r. reflexivity.
Qed.

(** No event other than a resolved feedback request touches [feedbackGiven]. *)
Lemma feedbackGiven_only_on_success (st : State) (e : Event) :
  feedbackGiven (step st e) <> feedbackGiven st ->
  exists i p, e = SettleFeedback i (Resolved tt) /\ inflight st !! i = Some p.
Proof.
  destruct e as [v | d s | d s r | i [[]|error]]; simpl; try congruence.
  - destruct (inflight st !! i) as [p|] eqn:Hp; simpl; [eauto | congruence].
  - destruct (inflight st !! i); simpl; congruence.
Qed.

(** C10, at two overlapping submissions.  With training mode on and both
    cards expanded, "Yes" is clicked on section 1 and then on section 2 while
    the first request is still outstanding; both requests succeed.  After the
    first success the set is {d-1} and the prompt of section 1 is hidden.
    The second handler still holds the empty set of the render it was
    created in, so its success stores {d-2}: the key of section 1 is gone and
    its prompt is shown again. *)
Theorem overlapping_feedback_drops_a_key :
  let expanded := run initial Samples.expand_both in
  let clicked := run expanded Samples.click_both in
  let first_done := step clicked (SettleFeedback 0 (Resolved tt)) in
  let both_done := step first_done (SettleFeedback 0 (Resolved tt)) in
  (promptShown true (expandedSections expanded) (feedbackGiven expanded) (key "d" 1) = true
   /\ promptShown true (expandedSections expanded) (feedbackGiven expanded) (key "d" 2) = true)
  /\ List.length (posted both_done) = 2
  /\ (feedbackGiven first_done = {[ key "d" 1 ]}
      /\ promptShown true (expandedSections first_done) (feedbackGiven first_done)
           (key "d" 1) = false)
  /\ (feedbackGiven both_done = {[ key "d" 2 ]}
      /\ (key "d" 1 ∉ feedbackGiven both_done)
      /\ promptShown true (expandedSections both_done) (feedbackGiven both_done)
           (key "d" 1) = true).
Proof.
  intros expanded clicked first_done both_done.
  assert (H1 : feedbackGiven both_done = {[ key "d" 2 ]}) by (vm_compute; reflexivity).
  split; [split; vm_compute; reflexivity |].
  split; [vm_compute; reflexivity |].
  split; [split; vm_compute; reflexivity |].
  split; [exact H1 |]. split; [| vm_compute; reflexivity].
  rewrite H1. apply not_elem_of_singleton. vm_compute. discriminate.
Qed.

End FeedbackFacts.

(** ** Segmenter *)

Section SegmenterFacts.
Import Segmenter.

Variable cfg : Config.

Lemma split_lines_not_nil (text : string) : split_lines text <> [].
Proof.
  destruct text as [|c rest]; simpl; [discriminate |].
  destruct (Ascii.eqb c newline); [discriminate |].
  destruct (split_lines rest); discriminate.
Qed.

Lemma join_lines_cons_char (c : ascii) (l : string) (ls : list string) :
  join_lines (String c l :: ls) = String c (join_lines (l :: ls)).
Proof. destruct ls; reflexivity. Qed.

Lemma join_split_lines (text : string) : join_lines (split_lines text) = text.
Proof.
  induction text as [|c rest IH]; [reflexivity |].
  simpl. destruct (Ascii.eqb_spec c newline) as [-> | Hc].
  - pose proof (split_lines_not_nil rest) as Hne.
    destruct (split_lines rest) as [|l ls] eqn:E; [contradiction |].
    change (join_lines ("" :: l :: ls)) with (String newline (join_lines (l :: ls))).
    rewrite IH. reflexivity.
  - pose proof (split_lines_not_nil rest) as Hne.
    destruct (split_lines rest) as [|l ls] eqn:E; [contradiction |].
    rewrite join_lines_cons_char, IH. reflexivity.
Qed.

Lemma scan_not_nil (ls : list string) (offset : nat) (current : Candidate) :
  scan cfg ls offset current <> [].
Proof.
  revert offset current.
  induction ls as [|l rest IH]; intros offset current; simpl; [discriminate |].
  destruct (classify cfg l); [| apply IH].
  destruct (untouched current); [apply IH | discriminate].
Qed.

Lemma scan_without_header (ls : list string) (offset : nat) (current : Candidate) :
  (forall l, In l ls -> classify cfg l = None) ->
  scan cfg ls offset current
  = [ {| head := head current; lines := (lines current ++ ls)%list; start := start current |} ].
Proof.
  revert offset current.
  induction ls as [|l rest IH]; intros offset current Hnone; simpl.
  - rewrite List.app_nil_r. destruct current; reflexivity.
  - rewrite (Hnone l) by (left; reflexivity).
    rewrite IH by (intros l' Hl'; apply Hnone; right; exact Hl').
    simpl. rewrite <- List.app_assoc. reflexivity.
Qed.


Lemma merge_short_not_nil (preceding : Candidate) (rest : list Candidate) :
  merge_short cfg preceding rest <> [].
Proof.
  revert preceding. induction rest as [|c rest IH]; intros preceding; simpl;
    [discriminate |].
  destruct (char_length (body_of c) <? MIN_SECTION_LENGTH cfg)%nat;
    [apply IH | discriminate].
Qed.


















(** C4.  For every text, [segment] returns a non-empty list of sections.  A
    text none of whose lines is a header gives one section that spans the
    whole text; the empty text gives one section with an empty body. *)
Theorem segment_never_empty (text : string) (pages : option (list nat)) :
  segment cfg text pages <> []
  /\ ((forall l, In l (split_lines text) -> classify cfg l = None) ->
      exists s, segment cfg text pages = [s]
        /\ body s = text /\ start_offset s = 0 /\ end_offset s = String.length text)
  /\ (exists s, segment cfg "" pages = [s]
        /\ body s = "" /\ start_offset s = 0 /\ end_offset s = 0).
Proof.
  split; [| split].
  - unfold segment, candidates.
    pose proof (scan_not_nil (split_lines text) 0 opening) as Hscan.
    destruct (scan cfg (split_lines text) 0 opening) as [|c rest]; [contradiction |].
    simpl. pose proof (merge_short_not_nil c rest) as Hmerge.
    destruct (merge_short cfg c rest); [contradiction | discriminate].
  - intros Hnone. unfold segment, candidates.
    rewrite (scan_without_header _ 0 opening Hnone). simpl.
    eexists; split; [reflexivity |]. simpl.
    split; [apply join_split_lines | split; reflexivity].
  - unfold segment, candidates. simpl.
    destruct (classify cfg ""); simpl; eexists; split; try reflexivity; simpl; auto.
Qed.


End SegmenterFacts.

(** The length of a text is counted in characters, not in bytes: the two
    bytes of a UTF-8 e-acute are one character. *)
Example char_length_counts_characters :
  Segmenter.char_length (String "195" (String "169" "t" ++ "e")) = 3
  /\ String.length (String "195" (String "169" "t" ++ "e")) = 4.
Proof. split; reflexivity. Qed.

(** The first scenario of the design document's section 8: two sections,
    titled by their header lines; the second has 22 characters. *)
Example segment_two_headers :
  List.map (fun s => (Segmenter.title s, Segmenter.char_length (Segmenter.body s)))
    (Segmenter.segment Segmenter.default_config Samples.two_headers None)
  = [("1. Introduction", 64); ("2. Notes", 22)].
Proof. vm_compute. reflexivity. Qed.


(** The text "hello" has no header line and is returned as one section. *)
Lemma segment_never_empty_witness :
  (forall l, In l (Segmenter.split_lines "hello") ->
             Segmenter.classify Segmenter.default_config l = None)
  /\ exists s, Segmenter.segment Segmenter.default_config "hello" None = [s]
       /\ Segmenter.body s = "hello" /\ Segmenter.start_offset s = 0
       /\ Segmenter.end_offset s = String.length "hello".
Proof.
  assert (Hnone : forall l, In l (Segmenter.split_lines "hello") ->
                            Segmenter.classify Segmenter.default_config l = None).
  { intros l [<- | []]. vm_compute. reflexivity. }
  split; [exact Hnone |].
  exact (proj1 (proj2 (segment_never_empty Segmenter.default_config "hello" None)) Hnone).
Defined.


(** ** FeedbackStore and TrainingController *)

Section StoreFacts.
Import FeedbackStore.

Lemma same_feedback_key (a b : FeedbackRecord) :
  same_feedback a b = true <-> feedback_key a = feedback_key b.
Proof.
  unfold same_feedback, feedback_key.
  rewrite !andb_true_iff, Z.eqb_eq, String.eqb_eq, Bool.eqb_true_iff.
  split.
  - intros [[-> ->] ->]. reflexivity.
  - intros E. inversion E. auto.
Qed.

Lemma already_recorded_key (fb : FeedbackRecord) (store : list FeedbackRecord) :
  already_recorded fb store = true <->
  In (feedback_key fb) (List.map feedback_key store).
Proof.
  unfold already_recorded. rewrite existsb_exists, List.in_map_iff.
  split.
  - intros (r & Hin & Hsame). exists r.
    split; [symmetry; apply same_feedback_key; exact Hsame | exact Hin].
  - intros (r & Hkey & Hin). exists r.
    split; [exact Hin | apply same_feedback_key; symmetry; exact Hkey].
Qed.

Lemma record_then_recorded (fb : FeedbackRecord) (store : list FeedbackRecord) :
  already_recorded fb (fst (record fb store)) = true.
Proof.
  unfold record. destruct (already_recorded fb store) eqn:E; simpl; [exact E |].
  apply already_recorded_key. rewrite List.map_app. apply List.in_or_app.
  right. left. reflexivity.
Qed.

Lemma record_keeps_distinct (fb : FeedbackRecord) (store : list FeedbackRecord) :
  List.NoDup (List.map feedback_key store) ->
  List.NoDup (List.map feedback_key (fst (record fb store))).
Proof.
  intros Hnd. unfold record.
  destruct (already_recorded fb store) eqn:E; simpl; [exact Hnd |].
  rewrite List.map_app; simpl.
  apply List.NoDup_app; [exact Hnd | constructor; [intros [] | constructor] |].
  intros k Hk [<- | []].
  apply already_recorded_key in Hk. congruence.
Qed.

(** C3.  Recording is idempotent.  If the store already holds a record for
    the same section with the same label, [record] ends without error as
    [DuplicateIgnored], the store is the same list and the count read by the
    retrain trigger is unchanged; in particular recording the same feedback a
    second time changes nothing, and a store without duplicates never
    acquires one. *)
Theorem record_is_idempotent (store : list FeedbackRecord) (fb : FeedbackRecord) :
  ((exists r, In r store /\ section_id r = section_id fb
              /\ document_id r = document_id fb /\ is_relevant r = is_relevant fb) ->
   record fb store = (store, DuplicateIgnored)
   /\ count (fst (record fb store)) = count store)
  /\ (let once := fst (record fb store) in
      record fb once = (once, DuplicateIgnored)
      /\ count (fst (record fb once)) = count once)
  /\ (List.NoDup (List.map feedback_key store) ->
      List.NoDup (List.map feedback_key (fst (record fb store)))).
Proof.
  assert (Hdup : forall st, already_recorded fb st = true ->
            record fb st = (st, DuplicateIgnored)
            /\ count (fst (record fb st)) = count st).
  { intros st E. unfold record. rewrite E. split; reflexivity. }
  split; [| split].
  - intros (r & Hin & Hs & Hd & Hl). apply Hdup.
    apply already_recorded_key. apply List.in_map_iff. exists r.
    split; [| exact Hin]. unfold feedback_key. rewrite Hs, Hd, Hl. reflexivity.
  - apply Hdup, record_then_recorded.
  - apply record_keeps_distinct.
Qed.

End StoreFacts.

(** Nine records in the store; the feedback on section 3 comes a second time. *)
Lemma record_is_idempotent_witness :
  let store := firstn 9 Samples.six_and_four in
  let again := Samples.feedback_on 3 false in
  (exists r, In r store
     /\ FeedbackStore.section_id r = FeedbackStore.section_id again
     /\ FeedbackStore.document_id r = FeedbackStore.document_id again
     /\ FeedbackStore.is_relevant r = FeedbackStore.is_relevant again)
  /\ FeedbackStore.record again store = (store, FeedbackStore.DuplicateIgnored)
  /\ FeedbackStore.count (fst (FeedbackStore.record again store)) = 9.
Proof.
  intros store again.
  assert (Hex : exists r, In r store
     /\ FeedbackStore.section_id r = FeedbackStore.section_id again
     /\ FeedbackStore.document_id r = FeedbackStore.document_id again
     /\ FeedbackStore.is_relevant r = FeedbackStore.is_relevant again).
  { exists again. split; [right; right; left; reflexivity | repeat split]. }
  split; [exact Hex |].
  destruct (proj1 (record_is_idempotent store again) Hex) as [Hsame Hcount].
  split; [exact Hsame | rewrite Hcount; reflexivity].
Defined.

Section TrainingFacts.
Import RelevanceScorer FeedbackStore TrainingController.

Context `{learner : Learner}.

Lemma maybe_retrain_store (core : Core) :
  store (fst (maybe_retrain core)) = store core.
Proof.
  unfold maybe_retrain. destruct (at_boundary (count (store core))); [| reflexivity].
  destruct (try_fit (store core)); reflexivity.
Qed.

Lemma after_store (core : Core) (fb : FeedbackRecord) :
  store (after core fb) = fst (record fb (store core)).
Proof.
  unfold after, submit_feedback.
  destruct (record fb (store core)) as [store' outcome]; simpl.
  pose proof (maybe_retrain_store {| store := store'; model := model core |}) as Hs.
  destruct (maybe_retrain {| store := store'; model := model core |}); simpl in *.
  exact Hs.
Qed.

(** A duplicate submission leaves the log, and so the count, as they were. *)
Lemma duplicate_submission_keeps_count (core : Core) (fb : FeedbackRecord) :
  already_recorded fb (store core) = true ->
  store (after core fb) = store core
  /\ count (store (after core fb)) = count (store core).
Proof.
  intros E. rewrite after_store. unfold record. rewrite E. split; reflexivity.
Qed.

(** One step changes the mode only from heuristic to learned, and only when
    [maybe_retrain] fitted a model. *)
Lemma after_mode (core : Core) (fb : FeedbackRecord) :
  (mode_of (after core fb) = mode_of core /\
   (mode_of core = HEURISTIC -> snd (submit_feedback core fb) = false))
  \/ (mode_of core = HEURISTIC /\ mode_of (after core fb) = LEARNED
      /\ snd (submit_feedback core fb) = true).
Proof.
  unfold after, submit_feedback, mode_of.
  destruct (record fb (store core)) as [store' outcome].
  unfold maybe_retrain; simpl.
  destruct (at_boundary (count store')); simpl; [| left; split; reflexivity].
  destruct (try_fit store') as [err | fitted]; simpl; [left; split; reflexivity |].
  destruct (model core); simpl; [right; auto | left; split; [reflexivity | discriminate]].
Qed.

Lemma after_learned (core : Core) (fb : FeedbackRecord) :
  mode_of core = LEARNED -> mode_of (after core fb) = LEARNED.
Proof.
  intros HL. destruct (after_mode core fb) as [[H _] | [H _]]; congruence.
Qed.

Lemma run_learned (fbs : list FeedbackRecord) (core : Core) :
  mode_of core = LEARNED -> mode_of (run core fbs) = LEARNED.
Proof.
  revert core. induction fbs as [|fb rest IH]; intros core HL; simpl; [exact HL |].
  apply IH, after_learned, HL.
Qed.

Lemma mode_changes_learned (fbs : list FeedbackRecord) (core : Core) :
  mode_of core = LEARNED -> mode_changes core fbs = 0.
Proof.
  revert core. induction fbs as [|fb rest IH]; intros core HL; simpl; [reflexivity |].
  rewrite (after_learned core fb HL), HL. simpl. apply IH, after_learned, HL.
Qed.

Lemma mode_changes_count (fbs : list FeedbackRecord) (core : Core) :
  mode_of core = HEURISTIC ->
  mode_changes core fbs
  = match mode_of (run core fbs) with LEARNED => 1 | HEURISTIC => 0 end.
Proof.
  revert core. induction fbs as [|fb rest IH]; intros core HH; simpl.
  - rewrite HH. reflexivity.
  - destruct (after_mode core fb) as [[Hsame _] | (_ & HL & _)].
    + rewrite Hsame, HH. simpl. apply IH. congruence.
    + rewrite HL, HH. simpl.
      rewrite (mode_changes_learned rest _ HL), (run_learned rest _ HL). reflexivity.
Qed.

Lemma learned_iff_fitted (fbs : list FeedbackRecord) (core : Core) :
  mode_of core = HEURISTIC ->
  (mode_of (run core fbs) = LEARNED <-> In true (retrain_flags core fbs)).
Proof.
  revert core. induction fbs as [|fb rest IH]; intros core HH; simpl.
  - rewrite HH. split; [discriminate | intros []].
  - destruct (after_mode core fb) as [[Hsame Hflag] | (_ & HL & Hflag)].
    + rewrite (Hflag HH). rewrite IH by congruence.
      split; [auto | intros [H | H]; [discriminate | exact H]].
    + rewrite Hflag. split; [auto | intros _; apply run_learned, HL].
Qed.

Lemma run_app (a b : list FeedbackRecord) (core : Core) :
  run core (a ++ b) = run (run core a) b.
Proof. unfold run. apply List.fold_left_app. Qed.

Lemma record_count_le (fb : FeedbackRecord) (st : list FeedbackRecord) :
  count (fst (record fb st)) <= S (count st).
Proof.
  unfold record, count. destruct (already_recorded fb st); simpl;
    [| rewrite List.length_app; simpl]; lia.
Qed.

Lemma at_boundary_below (n : nat) : n < RETRAIN_THRESHOLD -> at_boundary n = false.
Proof.
  unfold at_boundary, RETRAIN_THRESHOLD. intros Hn.
  destruct n as [|n]; [reflexivity |].
  rewrite Nat.mod_small by exact Hn. reflexivity.
Qed.

Lemma after_below_threshold (core : Core) (fb : FeedbackRecord) :
  count (fst (record fb (store core))) < RETRAIN_THRESHOLD ->
  mode_of (after core fb) = mode_of core.
Proof.
  intros Hlt. unfold after, submit_feedback, mode_of.
  destruct (record fb (store core)) as [store' outcome]; simpl in *.
  unfold maybe_retrain; simpl. rewrite at_boundary_below by exact Hlt. reflexivity.
Qed.

(** Fewer than [RETRAIN_THRESHOLD] submissions never leave heuristic mode. *)
Lemma heuristic_below_threshold (fbs : list FeedbackRecord) (core : Core) :
  mode_of core = HEURISTIC ->
  count (store core) + List.length fbs < RETRAIN_THRESHOLD ->
  mode_of (run core fbs) = HEURISTIC
  /\ count (store (run core fbs)) <= count (store core) + List.length fbs.
Proof.
  revert core. induction fbs as [|fb rest IH]; intros core HH Hlen; simpl in *.
  - split; [exact HH | lia].
  - pose proof (record_count_le fb (store core)) as Hle.
    assert (HH' : mode_of (after core fb) = HEURISTIC)
      by (rewrite after_below_threshold; [exact HH | lia]).
    rewrite <- after_store in Hle.
    destruct (IH (after core fb) HH') as [H1 H2]; [lia |].
    split; [exact H1 | lia].
Qed.

Lemma run_store_distinct (fbs : list FeedbackRecord) (core : Core) :
  List.NoDup (List.map feedback_key (store core ++ fbs)) ->
  store (run core fbs) = (store core ++ fbs)%list.
Proof.
  revert core. induction fbs as [|fb rest IH]; intros core Hnd; simpl.
  - rewrite List.app_nil_r. reflexivity.
  - assert (Hstore : store (after core fb) = (store core ++ [fb])%list).
    { rewrite after_store. unfold record.
      destruct (already_recorded fb (store core)) eqn:E; [| reflexivity].
      exfalso. apply already_recorded_key in E.
      rewrite List.map_app in Hnd. simpl in Hnd.
      apply List.NoDup_remove_2 in Hnd. apply Hnd.
      apply List.in_or_app. left. exact E. }
    rewrite IH; rewrite Hstore, <- List.app_assoc; [reflexivity | exact Hnd].
Qed.

Lemma after_fits (core : Core) (fb : FeedbackRecord) :
  let log := fst (record fb (store core)) in
  at_boundary (count log) = true ->
  forallb (fun r => well_shaped (feature_vector r)) log = true ->
  has_label true log = true -> has_label false log = true ->
  mode_of (after core fb) = LEARNED /\ snd (submit_feedback core fb) = true.
Proof.
  intros log Hb Hshape Hpos Hneg. subst log.
  unfold after, submit_feedback, mode_of.
  destruct (record fb (store core)) as [store' outcome]; simpl in *.
  unfold maybe_retrain; simpl. rewrite Hb.
  unfold try_fit. rewrite Hshape, Hpos, Hneg. simpl. split; reflexivity.
Qed.

(** C2.  The mode never returns from learned to heuristic, whatever feedback
    follows, from any state.  Along a run from the initial state the mode
    changes at most once, and it has changed exactly when some
    [maybe_retrain] has fitted a model.  Ten distinct records that are well
    shaped and carry both labels make that happen at the tenth record and
    not before. *)
Theorem mode_turns_learned_once :
  (forall (core : Core) (fbs : list FeedbackRecord),
     mode_of core = LEARNED -> mode_of (run core fbs) = LEARNED)
  /\ (forall fbs : list FeedbackRecord,
        mode_changes initial fbs
        = match mode_of (run initial fbs) with LEARNED => 1 | HEURISTIC => 0 end
        /\ (mode_of (run initial fbs) = LEARNED <-> In true (retrain_flags initial fbs)))
  /\ (forall fbs : list FeedbackRecord,
        List.length fbs = RETRAIN_THRESHOLD ->
        List.NoDup (List.map feedback_key fbs) ->
        (forall r, In r fbs -> List.length (feature_vector r) = FeatureExtractor.FEATURE_COUNT) ->
        (exists r, In r fbs /\ is_relevant r = true) ->
        (exists r, In r fbs /\ is_relevant r = false) ->
        mode_of (run initial fbs) = LEARNED
        /\ mode_changes initial fbs = 1
        /\ forall k, k < RETRAIN_THRESHOLD ->
             mode_of (run initial (firstn k fbs)) = HEURISTIC).
Proof.
  split; [intros core fbs; apply run_learned |].
  split.
  { intros fbs. split; [apply mode_changes_count | apply learned_iff_fitted]; reflexivity. }
  intros fbs Hlen Hnd Hshape Hpos Hneg.
  assert (Hprefix : forall k, k < RETRAIN_THRESHOLD ->
            mode_of (run initial (firstn k fbs)) = HEURISTIC).
  { intros k Hk. apply heuristic_below_threshold; [reflexivity |].
    simpl. rewrite List.length_firstn. lia. }
  assert (HL : mode_of (run initial fbs) = LEARNED).
  { destruct (List.exists_last (l := fbs)) as (front & last & Hsplit).
    { intros ->. discriminate Hlen. }
    assert (Hall : store (run initial fbs) = fbs) by (apply run_store_distinct; exact Hnd).
    rewrite Hsplit in Hall |- *. rewrite run_app in Hall |- *. simpl in Hall |- *.
    rewrite after_store in Hall.
    apply after_fits; rewrite Hall, <- Hsplit.
    - unfold count. rewrite Hlen. reflexivity.
    - apply forallb_forall. intros r Hr. unfold well_shaped.
      rewrite (Hshape r Hr). reflexivity.
    - destruct Hpos as (r & Hr & Hrel). unfold has_label. apply existsb_exists.
      exists r. split; [exact Hr | rewrite Hrel; reflexivity].
    - destruct Hneg as (r & Hr & Hrel). unfold has_label. apply existsb_exists.
      exists r. split; [exact Hr | rewrite Hrel; reflexivity]. }
  split; [exact HL |]. split; [| exact Hprefix].
  rewrite mode_changes_count by reflexivity. rewrite HL. reflexivity.
Qed.

End TrainingFacts.

(** Six positive and four negative records: heuristic after nine, learned
    after ten, and still learned after ten more submissions of one label. *)
Lemma mode_turns_learned_once_witness :
  let fbs := Samples.six_and_four in
  (List.length fbs = TrainingController.RETRAIN_THRESHOLD
   /\ List.NoDup (List.map FeedbackStore.feedback_key fbs))
  /\ @TrainingController.mode_of TrainingController.majority_learner
       (@TrainingController.run TrainingController.majority_learner
          (@TrainingController.initial TrainingController.majority_learner) fbs)
     = RelevanceScorer.LEARNED
  /\ @TrainingController.mode_of TrainingController.majority_learner
       (@TrainingController.run TrainingController.majority_learner
          (@TrainingController.initial TrainingController.majority_learner)
          (firstn 9 fbs))
     = RelevanceScorer.HEURISTIC
  /\ @TrainingController.mode_of TrainingController.majority_learner
       (@TrainingController.run TrainingController.majority_learner
          (@TrainingController.initial TrainingController.majority_learner)
          (fbs ++ List.repeat (Samples.feedback_on 11 true) 10))
     = RelevanceScorer.LEARNED.
Proof.
  intros fbs.
  assert (Hnd : List.NoDup (List.map FeedbackStore.feedback_key fbs)).
  { apply (NoDup_ListNoDup (List.map FeedbackStore.feedback_key fbs)).
    apply (bool_decide_unpack _). vm_compute. reflexivity. }
  pose proof (@mode_turns_learned_once TrainingController.majority_learner)
    as (Hstay & _ & Hten).
  destruct (Hten fbs eq_refl Hnd) as (HL & _ & Hbefore).
  - intros r Hr. simpl in Hr.
    repeat (destruct Hr as [<- | Hr]; [reflexivity |]). destruct Hr.
  - exists (Samples.feedback_on 1 true). split; [left; reflexivity | reflexivity].
  - exists (Samples.feedback_on 3 false).
    split; [right; right; left; reflexivity | reflexivity].
  - split; [split; [reflexivity | exact Hnd] |].
    split; [exact HL |]. split; [apply Hbefore; unfold TrainingController.RETRAIN_THRESHOLD; lia |].
    rewrite (@run_app TrainingController.majority_learner). apply Hstay. exact HL.
Defined.

(* ===================================================================== *)
(** * Part III -- further properties of the front end                     *)
(* ===================================================================== *)

(** ** The threshold slider *)

Section ThresholdFacts.
Import SectionDisplay.

Lemma SFleb_rank (a b : SpecFloat.spec_float) :
  Binary64.not_nan a -> Binary64.not_nan b ->
  (SpecFloat.SFleb a b = true <-> Binary64.lex_le (Binary64.rank a) (Binary64.rank b)).
Proof.
  unfold SpecFloat.SFleb.
  destruct a as [sa|sa| |sa ma ea], b as [sb|sb| |sb mb eb];
    cbn -[Z.compare Pos.compare_cont Z.lt Z.le Z.opp];
    intros Ha Hb; try contradiction;
    try (destruct sa); try (destruct sb);
    cbn -[Z.compare Pos.compare_cont Z.lt Z.le Z.opp];
    try (split; [intros _; lia | reflexivity]);
    try (split; [discriminate | lia]).
  - rewrite Pos.compare_cont_spec; simpl.
    destruct (Z.compare_spec ea eb) as [He|He|He];
      [destruct (Pos.compare_spec ma mb) as [Hm|Hm|Hm]; simpl | |];
      split; intros H; try reflexivity; try discriminate; lia.
  - rewrite Pos.compare_cont_spec; simpl.
    destruct (Z.compare_spec ea eb) as [He|He|He];
      [destruct (Pos.compare_spec ma mb) as [Hm|Hm|Hm]; simpl | |];
      split; intros H; try reflexivity; try discriminate; lia.
Qed.

Lemma SFleb_not_nan (a b : SpecFloat.spec_float) :
  SpecFloat.SFleb a b = true -> Binary64.not_nan a /\ Binary64.not_nan b.
Proof.
  unfold SpecFloat.SFleb. destruct a, b; simpl; try discriminate; auto.
Qed.

(** [>=] on JavaScript numbers is transitive. *)
Lemma js_ge_trans (a b c : float) :
  js_ge a b = true -> js_ge b c = true -> js_ge a c = true.
Proof.
  unfold js_ge. rewrite !FloatAxioms.leb_spec. intros Hba Hcb.
  destruct (SFleb_not_nan _ _ Hba) as [Nb Na].
  destruct (SFleb_not_nan _ _ Hcb) as [Nc _].
  apply SFleb_rank in Hba; [| assumption..].
  apply SFleb_rank in Hcb; [| assumption..].
  apply SFleb_rank; [assumption.. |].
  unfold Binary64.lex_le in *.
  destruct (Binary64.rank (Prim2SF a)) as [[a1 a2] a3].
  destruct (Binary64.rank (Prim2SF b)) as [[b1 b2] b3].
  destruct (Binary64.rank (Prim2SF c)) as [[c1 c2] c3].
  lia.
Qed.

Lemma filter_length_le_implied {A : Type} (p q : A -> bool) (l : list A) :
  (forall x, In x l -> p x = true -> q x = true) ->
  List.length (List.filter p l) <= List.length (List.filter q l).
Proof.
  induction l as [|x l IH]; intros Himp; simpl; [lia |].
  assert (IH' : List.length (List.filter p l) <= List.length (List.filter q l))
    by (apply IH; intros y Hy; apply Himp; right; exact Hy).
  destruct (p x) eqn:Hp.
  - rewrite (Himp x (or_introl eq_refl) Hp). simpl. lia.
  - destruct (q x); simpl; lia.
Qed.

(** X1.  Raising the threshold never brings a section in: every section
    shown at the higher threshold is shown at the lower one, so the count
    after "Relevant:" can only go down, and it never exceeds the number of
    sections received. *)
Theorem raising_threshold_only_hides (trainingMode : bool) (low high : float)
    (expanded given : gset string) (doc : Document) :
  js_ge high low = true ->
  (forall s, In s (filteredSections high doc) -> In s (filteredSections low doc))
  /\ view_relevant (renderDocument trainingMode high expanded given doc)
     <= view_relevant (renderDocument trainingMode low expanded given doc)
  /\ view_relevant (renderDocument trainingMode low expanded given doc)
     <= List.length (sections doc).
Proof.
  intros Hge. split; [| split].
  - intros s Hs. apply filteredSections_In in Hs as [Hin Hhigh].
    apply filteredSections_In. split; [exact Hin |].
    exact (js_ge_trans _ _ _ Hhigh Hge).
  - unfold renderDocument, filteredSections; simpl.
    apply filter_length_le_implied. intros s _ Hhigh.
    exact (js_ge_trans _ _ _ Hhigh Hge).
  - unfold renderDocument, filteredSections; simpl. apply List.filter_length_le.
Qed.

(** Moving the slider from 0.5 to 0.75 on the sample report: two sections
    shown before, one after. *)
Lemma raising_threshold_only_hides_witness :
  js_ge 0.75 0.5 = true
  /\ view_relevant (renderDocument true 0.75 ∅ ∅ Samples.quarterly_report) = 1
  /\ view_relevant (renderDocument true 0.5 ∅ ∅ Samples.quarterly_report) = 2
  /\ view_relevant (renderDocument true 0.75 ∅ ∅ Samples.quarterly_report)
     <= view_relevant (renderDocument true 0.5 ∅ ∅ Samples.quarterly_report).
Proof.
  split; [vm_compute; reflexivity |].
  split; [vm_compute; reflexivity |]. split; [vm_compute; reflexivity |].
  apply (proj1 (proj2 (raising_threshold_only_hides true 0.5 0.75 ∅ ∅
                         Samples.quarterly_report (eq_refl : js_ge 0.75 0.5 = true)))).
Defined.

Lemma card_of_filtered (trainingMode : bool) (threshold : float)
    (expanded given : gset string) (doc : Document) (card : SectionCard) :
  In card (view_cards (renderDocument trainingMode threshold expanded given doc)) ->
  In (card_section card) (sections doc)
  /\ js_ge (relevance_score (card_section card)) threshold = true
  /\ card_class card = getScoreClass (relevance_score (card_section card))
  /\ card_color card = getScoreColor (relevance_score (card_section card)).
Proof.
  unfold renderDocument; simpl. intros Hin.
  apply List.in_map_iff in Hin as (s & <- & Hs).
  apply filteredSections_In in Hs as [Hin Hge]. simpl. auto.
Qed.

(** X2.  The threshold bounds the bands on screen: with the slider at 0.7
    or above every card shown is in the high band (green), and with the
    slider at 0.4 or above no card shown is in the low band (red). *)
Theorem threshold_bounds_the_bands (trainingMode : bool) (threshold : float)
    (expanded given : gset string) (doc : Document) (card : SectionCard) :
  In card (view_cards (renderDocument trainingMode threshold expanded given doc)) ->
  (js_ge threshold 0.7 = true ->
   card_class card = "high" /\ card_color card = "text-emerald-400")
  /\ (js_ge threshold 0.4 = true ->
      card_class card <> "low" /\ card_color card <> "text-red-400").
Proof.
  intros Hcard.
  destruct (card_of_filtered _ _ _ _ _ _ Hcard) as (_ & Hge & -> & ->).
  split; intros Ht; pose proof (js_ge_trans _ _ _ Hge Ht) as Hscore;
    destruct (getScoreClass_cases (relevance_score (card_section card)))
      as [(G7 & C & K) | [(G7 & G4 & C & K) | (G7 & G4 & C & K)]];
    rewrite C, K; try (split; congruence); split; discriminate.
Qed.

(** The only card of the sample report at threshold 0.75 is green. *)
Lemma threshold_bounds_the_bands_witness :
  exists card,
    view_cards (renderDocument false 0.75 ∅ ∅ Samples.quarterly_report) = [card]
    /\ js_ge 0.75 0.7 = true
    /\ card_class card = "high" /\ card_color card = "text-emerald-400".
Proof.
  eexists. split; [vm_compute; reflexivity |]. split; [vm_compute; reflexivity |].
  apply (proj1 (threshold_bounds_the_bands false 0.75 ∅ ∅ Samples.quarterly_report _
                  (or_introl eq_refl))).
  vm_compute; reflexivity.
Defined.

Lemma js_ge_numbers (a b : float) :
  js_ge a b = true -> is_number a /\ is_number b.
Proof.
  intros H. split; [exact (js_ge_number a b H) |].
  unfold js_ge in H. rewrite FloatAxioms.leb_spec in H.
  destruct (SFleb_not_nan _ _ H) as [Nb _].
  unfold is_number, PrimFloat.is_nan. rewrite FloatAxioms.eqb_spec.
  unfold SpecFloat.SFeqb.
  destruct (Prim2SF b) as [s|s| |s m e]; simpl in *; try contradiction;
    try reflexivity; try (destruct s; reflexivity).
  destruct s; simpl; rewrite Z.compare_refl, Pos.compare_cont_refl; reflexivity.
Qed.

(** X3.  What is not a number is never relevant: a section whose score is
    NaN is shown at no threshold, and a threshold that is NaN shows no
    section at all, only the "No sections match" notice. *)
Theorem nan_is_never_relevant (trainingMode : bool) (threshold : float)
    (expanded given : gset string) (doc : Document) :
  (forall s, PrimFloat.is_nan (relevance_score s) = true ->
             ~ In s (filteredSections threshold doc))
  /\ (PrimFloat.is_nan threshold = true ->
      let view := renderDocument trainingMode threshold expanded given doc in
      view_cards view = [] /\ view_relevant view = 0 /\ view_empty_notice view = true).
Proof.
  split.
  - intros s Hnan Hin. apply filteredSections_In in Hin as [_ Hge].
    apply js_ge_numbers in Hge as [Hnum _]. unfold is_number in Hnum. congruence.
  - intros Hnan view.
    assert (Hnone : filteredSections threshold doc = []).
    { unfold filteredSections.
      induction (sections doc) as [|s l IH]; simpl; [reflexivity |].
      destruct (js_ge (relevance_score s) threshold) eqn:Hge; [| exact IH].
      apply js_ge_numbers in Hge as [_ Hnum]. unfold is_number in Hnum. congruence. }
    subst view. unfold renderDocument. rewrite Hnone. simpl. auto.
Qed.

(** Section 4 of the sample report has a NaN score and is not shown even at
    threshold 0; a NaN threshold shows nothing. *)
Lemma nan_is_never_relevant_witness :
  (PrimFloat.is_nan (relevance_score (Samples.scored 4 PrimFloat.nan)) = true
   /\ ~ In (Samples.scored 4 PrimFloat.nan) (filteredSections 0 Samples.quarterly_report))
  /\ (PrimFloat.is_nan PrimFloat.nan = true
      /\ view_cards (renderDocument true PrimFloat.nan ∅ ∅ Samples.quarterly_report) = []).
Proof.
  split; (split; [vm_compute; reflexivity |]).
  - apply (proj1 (nan_is_never_relevant true 0 ∅ ∅ Samples.quarterly_report)).
    vm_compute; reflexivity.
  - apply (proj2 (nan_is_never_relevant true PrimFloat.nan ∅ ∅ Samples.quarterly_report)).
    vm_compute; reflexivity.
Defined.

End ThresholdFacts.

(** ** Card keys and expansion *)

Section ExpansionFacts.
Import SectionDisplay.

Lemma toggleSection_elem (expanded : gset string) (docId : string) (sectionId : Z)
    (k : string) :
  k ∈ toggleSection expanded docId sectionId <->
  (k = key docId sectionId /\ k ∉ expanded) \/ (k <> key docId sectionId /\ k ∈ expanded).
Proof.
  unfold toggleSection. destruct (decide (key docId sectionId ∈ expanded)) as [Hin | Hout].
  - rewrite elem_of_difference, elem_of_singleton.
    destruct (decide (k = key docId sectionId)) as [-> | Hne]; tauto.
  - rewrite elem_of_union, elem_of_singleton.
    destruct (decide (k = key docId sectionId)) as [-> | Hne]; tauto.
Qed.

(** X4.  Clicking a card header twice leaves the set of expanded cards as it
    was; one click flips the card's own key and no other key. *)
Theorem toggleSection_flips_one_key (expanded : gset string) (docId : string)
    (sectionId : Z) :
  toggleSection (toggleSection expanded docId sectionId) docId sectionId = expanded
  /\ (key docId sectionId ∈ toggleSection expanded docId sectionId
      <-> key docId sectionId ∉ expanded)
  /\ (forall k, k <> key docId sectionId ->
        (k ∈ toggleSection expanded docId sectionId <-> k ∈ expanded)).
Proof.
  split; [| split].
  - apply set_eq. intros k. rewrite !toggleSection_elem.
    destruct (decide (k = key docId sectionId)) as [Heq | Hne].
    + subst k. destruct (decide (key docId sectionId ∈ expanded)); intuition congruence.
    + destruct (decide (k ∈ expanded)); intuition congruence.
  - rewrite toggleSection_elem. intuition congruence.
  - intros k Hne. rewrite toggleSection_elem. tauto.
Qed.

Lemma no_dash_digit (n : N) (s : string) :
  no_dash (String (pretty_N_char n) s) = no_dash s.
Proof. unfold pretty_N_char. repeat case_match; reflexivity. Qed.

Lemma pretty_N_go_no_dash (x : N) (s : string) :
  no_dash s = true -> no_dash (pretty_N_go x s) = true.
Proof.
  revert s. induction (N.lt_wf_0 x) as [x _ IH]. intros s Hs.
  assert (Hx : (x = 0 \/ 0 < x)%N) by lia. destruct Hx as [-> | Hpos].
  - rewrite pretty_N_go_0. exact Hs.
  - rewrite pretty_N_go_step by exact Hpos. apply IH.
    + apply N.div_lt; [exact Hpos | reflexivity].
    + rewrite no_dash_digit. exact Hs.
Qed.

Lemma pretty_Z_no_dash (z : Z) : (0 <= z)%Z -> no_dash (pretty z) = true.
Proof.
  destruct z as [|p|p]; intros Hz; [reflexivity | | lia].
  change (pretty (Zpos p)) with (pretty (Npos p)).
  unfold pretty, pretty_N. destruct (decide (N.pos p = 0%N)); [reflexivity |].
  apply pretty_N_go_no_dash. reflexivity.
Qed.

Lemma no_dash_before_dash (x y : string) : no_dash (x ++ String "-" y) = false.
Proof.
  induction x as [|c x IH]; [reflexivity |].
  change (String c x ++ String "-" y) with (String c (x ++ String "-" y)).
  simpl. rewrite IH. apply andb_false_r.
Qed.

Lemma last_dash_splits (d1 d2 p1 p2 : string) :
  no_dash p1 = true -> no_dash p2 = true ->
  d1 ++ String "-" p1 = d2 ++ String "-" p2 -> d1 = d2 /\ p1 = p2.
Proof.
  intros H1 H2. revert d2.
  induction d1 as [|c d1 IH]; intros [|c' d2] E.
  - inversion E. auto.
  - change (String "-" p1 = String c' (d2 ++ String "-" p2)) in E.
    inversion E; subst. rewrite no_dash_before_dash in H1. discriminate.
  - change (String c (d1 ++ String "-" p1) = String "-" p2) in E.
    inversion E; subst. rewrite no_dash_before_dash in H2. discriminate.
  - change (String c (d1 ++ String "-" p1) = String c' (d2 ++ String "-" p2)) in E.
    inversion E; subst. destruct (IH d2 H3) as [-> ->]. auto.
Qed.

Lemma key_inj_same_document (docId : string) (s1 s2 : Z) :
  key docId s1 = key docId s2 -> s1 = s2.
Proof.
  intros E. unfold key in E.
  apply (inj (String.app docId)) in E. apply (inj (String.app "-")) in E.
  exact (inj pretty _ _ E).
Qed.

Lemma key_inj_not_negative (d1 d2 : string) (s1 s2 : Z) :
  (0 <= s1)%Z -> (0 <= s2)%Z -> key d1 s1 = key d2 s2 -> d1 = d2 /\ s1 = s2.
Proof.
  intros H1 H2 E. unfold key in E.
  change (d1 ++ String "-" (pretty s1) = d2 ++ String "-" (pretty s2)) in E.
  apply last_dash_splits in E as [-> E]; try (apply pretty_Z_no_dash; assumption).
  split; [reflexivity | exact (inj pretty _ _ E)].
Qed.

(** X5.  Distinct cards have distinct keys: within one document for all
    section ids, and across documents for section ids that are not negative
    (whatever characters the document ids contain). *)
Theorem key_identifies_the_card :
  (forall (docId : string) (s1 s2 : Z), key docId s1 = key docId s2 -> s1 = s2)
  /\ (forall (d1 d2 : string) (s1 s2 : Z),
        (0 <= s1)%Z -> (0 <= s2)%Z ->
        key d1 s1 = key d2 s2 -> d1 = d2 /\ s1 = s2).
Proof. split; [exact key_inj_same_document | exact key_inj_not_negative]. Qed.

(** With a negative section id the separator is ambiguous. *)
Example key_collision_with_negative_id : key "a" (-1) = key "a-" 1.
Proof. reflexivity. Qed.

(** Document "a-1" with section 2 and document "a" with section 12 have
    different keys, and so have sections 1 and 2 of document "d". *)
Lemma key_identifies_the_card_witness :
  ((0 <= 12)%Z /\ (0 <= 2)%Z)
  /\ key "a-1" 2 <> key "a" 12
  /\ key "d" 1 <> key "d" 2.
Proof.
  split; [lia |]. split.
  - intros E.
    destruct (proj2 key_identifies_the_card "a-1" "a" 2%Z 12%Z ltac:(lia) ltac:(lia) E)
      as [Hd _].
    discriminate Hd.
  - intros E. pose proof (proj1 key_identifies_the_card "d" 1%Z 2%Z E). discriminate.
Defined.

(** X6.  Clicking the header of one card expands or collapses that card and
    no other: the card of any other section (of any document, section ids
    not negative) is rendered as before. *)
Theorem click_touches_one_card (st : State) (trainingMode : bool)
    (docId : string) (sectionId : Z) (doc : Document) (section : ScoredSection) :
  (0 <= sectionId)%Z -> (0 <= section_id section)%Z ->
  (document_id doc, section_id section) <> (docId, sectionId) ->
  let st' := step st (ClickSection docId sectionId) in
  renderCard trainingMode (expandedSections st') (feedbackGiven st') doc section
  = renderCard trainingMode (expandedSections st) (feedbackGiven st) doc section.
Proof.
  intros H1 H2 Hne st'. subst st'. simpl.
  assert (Hk : key (document_id doc) (section_id section) <> key docId sectionId).
  { intros E. apply key_inj_not_negative in E as [Hd Hs]; try assumption.
    apply Hne. rewrite Hd, Hs. reflexivity. }
  assert (Hsame : key (document_id doc) (section_id section)
                    ∈ toggleSection (expandedSections st) docId sectionId
                  <-> key (document_id doc) (section_id section) ∈ expandedSections st)
    by (rewrite toggleSection_elem; intuition congruence).
  assert (Hb : bool_decide (key (document_id doc) (section_id section)
                            ∈ toggleSection (expandedSections st) docId sectionId)
               = bool_decide (key (document_id doc) (section_id section)
                              ∈ expandedSections st))
    by (apply bool_decide_ext; exact Hsame).
  unfold renderCard, promptShown. rewrite Hb. reflexivity.
Qed.

End ExpansionFacts.

(** The card of section 2 stays expanded when the header of section 1 is
    clicked. *)
Lemma click_touches_one_card_witness :
  let st := SectionDisplay.run SectionDisplay.initial Samples.expand_both in
  let st' := SectionDisplay.step st (SectionDisplay.ClickSection "d" 1) in
  ((0 <= 1)%Z /\ (0 <= 2)%Z)
  /\ SectionDisplay.card_expanded
       (SectionDisplay.renderCard true (SectionDisplay.expandedSections st')
          (SectionDisplay.feedbackGiven st') Samples.quarterly_report
          (Samples.scored 2 0.55)) = true.
Proof.
  intros st st'. split; [lia |].
  pose proof (click_touches_one_card st true "d" 1 Samples.quarterly_report
                (Samples.scored 2 0.55) ltac:(simpl; lia) ltac:(simpl; lia)
                ltac:(simpl; congruence)) as E.
  cbv zeta in E. subst st'. rewrite E. vm_compute. reflexivity.
Defined.

(** ** Feedback, one request at a time *)

Section SequentialFeedbackFacts.
Import SectionDisplay.

(** At most one handler is waiting, and it holds the current set. *)
Lemma one_request_step (st : State) (e : Event) :
  match inflight st with
  | [] => True
  | [p] => pending_feedbackGiven p = feedbackGiven st
  | _ => False
  end ->
  one_at_a_time st [e] = true ->
  match inflight (step st e) with
  | [] => True
  | [p] => pending_feedbackGiven p = feedbackGiven (step st e)
  | _ => False
  end
  /\ feedbackGiven st ⊆ feedbackGiven (step st e)
  /\ expandedSections (step st e)
     = match e with
       | ClickSection docId sectionId => toggleSection (expandedSections st) docId sectionId
       | _ => expandedSections st
       end.
Proof.
  intros Hinv Hok.
  destruct e as [v | d s | d s r | i outcome]; simpl in *.
  - repeat split; [exact Hinv | set_solver].
  - repeat split; [exact Hinv | set_solver].
  - destruct (inflight st) as [|p rest]; [| discriminate].
    simpl. repeat split; set_solver.
  - destruct (inflight st) as [|p [|q rest]] eqn:Hin; try contradiction.
    + simpl. rewrite Hin. repeat split; set_solver.
    + destruct i as [|i]; simpl.
      * destruct outcome as [[]|error]; simpl.
        -- rewrite Hinv. repeat split. apply union_subseteq_l.
        -- repeat split. reflexivity.
      * rewrite Hin. repeat split; [exact Hinv | set_solver].
Qed.

Lemma one_at_a_time_cons (st : State) (e : Event) (rest : list Event) :
  one_at_a_time st (e :: rest) = true ->
  one_at_a_time st [e] = true /\ one_at_a_time (step st e) rest = true.
Proof.
  simpl. destruct e; try (intros H; split; [reflexivity | exact H]).
  destruct (inflight st); [intros H; split; [reflexivity | exact H] | discriminate].
Qed.

Lemma one_request_run (events : list Event) (st : State) :
  match inflight st with
  | [] => True
  | [p] => pending_feedbackGiven p = feedbackGiven st
  | _ => False
  end ->
  one_at_a_time st events = true ->
  feedbackGiven st ⊆ feedbackGiven (run st events).
Proof.
  revert st. induction events as [|e rest IH]; intros st Hinv Hok; simpl.
  - set_solver.
  - apply one_at_a_time_cons in Hok as [He Hrest].
    destruct (one_request_step st e Hinv He) as (Hinv' & Hsub & _).
    specialize (IH (step st e) Hinv' Hrest). unfold run in IH. set_solver.
Qed.

(** X7.  As long as a feedback button is clicked only when no feedback
    request is outstanding, [feedbackGiven] only grows: a key once added is
    never removed, and the prompt of its card is never shown again, whatever
    is clicked, moved or answered afterwards. *)
Theorem one_at_a_time_keeps_feedback (st : State) (events : list Event) :
  inflight st = [] ->
  one_at_a_time st events = true ->
  feedbackGiven st ⊆ feedbackGiven (run st events)
  /\ forall (trainingMode : bool) (k : string),
       k ∈ feedbackGiven st ->
       promptShown trainingMode (expandedSections (run st events))
         (feedbackGiven (run st events)) k = false.
Proof.
  intros Hnone Hok.
  assert (Hsub : feedbackGiven st ⊆ feedbackGiven (run st events)).
  { apply one_request_run; [rewrite Hnone; exact I | exact Hok]. }
  split; [exact Hsub |].
  intros trainingMode k Hk. unfold promptShown.
  rewrite (bool_decide_eq_true_2 (k ∈ feedbackGiven (run st events))) by set_solver.
  simpl. rewrite !andb_false_r. reflexivity.
Qed.

Lemma posted_keys_step (st : State) (e : Event) :
  ((forall k, k ∈ feedbackGiven st -> In k (List.map request_key (posted st)))
   /\ (forall p, In p (inflight st) ->
         forall k, k ∈ pending_feedbackGiven p \/ k = request_key (pending_request p) ->
                   In k (List.map request_key (posted st)))) ->
  (forall k, k ∈ feedbackGiven (step st e) ->
             In k (List.map request_key (posted (step st e))))
  /\ (forall p, In p (inflight (step st e)) ->
        forall k, k ∈ pending_feedbackGiven p \/ k = request_key (pending_request p) ->
                  In k (List.map request_key (posted (step st e)))).
Proof.
  intros [Hgiven Hwait].
  destruct e as [v | d s | d s r | i outcome]; simpl.
  - split; assumption.
  - split; assumption.
  - rewrite List.map_app. split.
    + intros k Hk. apply List.in_or_app. left. apply Hgiven, Hk.
    + intros p Hp k Hk. apply List.in_or_app.
      apply List.in_app_or in Hp as [Hp | [<- | []]].
      * left. exact (Hwait p Hp k Hk).
      * simpl in Hk. destruct Hk as [Hk | ->];
          [left; apply Hgiven, Hk | right; left; reflexivity].
  - destruct (inflight st !! i) as [p|] eqn:Hp; [| split; assumption].
    assert (Hin : In p (inflight st))
      by (apply list_elem_of_In; eapply list_elem_of_lookup_2; exact Hp).
    assert (Hrest : forall q, In q (delete i (inflight st)) -> In q (inflight st)).
    { intros q Hq. apply list_elem_of_In. apply list_elem_of_In in Hq.
      exact (list_elem_of_delete_inv q i (inflight st) Hq). }
    destruct outcome as [[]|error]; simpl; split.
    + intros k Hk. apply elem_of_union in Hk as [Hk | Hk].
      * apply (Hwait p Hin). left. exact Hk.
      * apply elem_of_singleton in Hk. apply (Hwait p Hin). right. exact Hk.
    + intros q Hq. apply Hwait, Hrest, Hq.
    + exact Hgiven.
    + intros q Hq. apply Hwait, Hrest, Hq.
Qed.

(** X8.  Whatever happens to a mounted component, and in whatever order the
    requests settle: every key in [feedbackGiven] is the key of a feedback
    request that was sent.  No card is marked "Feedback submitted" without
    its feedback having been posted. *)
Theorem feedbackGiven_was_posted (events : list Event) (k : string) :
  k ∈ feedbackGiven (run initial events) ->
  exists r, In r (posted (run initial events)) /\ request_key r = k.
Proof.
  assert (Hinv : forall es st,
    ((forall k, k ∈ feedbackGiven st -> In k (List.map request_key (posted st)))
     /\ (forall p, In p (inflight st) ->
           forall k, k ∈ pending_feedbackGiven p \/ k = request_key (pending_request p) ->
                     In k (List.map request_key (posted st)))) ->
    forall k, k ∈ feedbackGiven (run st es) ->
              In k (List.map request_key (posted (run st es)))).
  { induction es as [|e rest IH]; intros st Hst; simpl; [exact (proj1 Hst) |].
    apply IH, posted_keys_step, Hst. }
  intros Hk. apply (Hinv events initial) in Hk.
  - apply List.in_map_iff in Hk as (r & Hr & Hin). exists r. auto.
  - split; [intros k' Hk'; set_solver | intros p []].
Qed.

End SequentialFeedbackFacts.

(** Section 1 has its feedback; then "Yes" on section 2 is clicked and
    answered, and the slider is moved: the key of section 1 is still there. *)
Lemma one_at_a_time_keeps_feedback_witness :
  let st := SectionDisplay.run SectionDisplay.initial
              (Samples.expand_both ++
               [SectionDisplay.ClickFeedback "d" 1 true;
                SectionDisplay.SettleFeedback 0 (Resolved tt)]) in
  let events := [SectionDisplay.ClickFeedback "d" 2 true;
                 SectionDisplay.SettleFeedback 0 (Resolved tt);
                 SectionDisplay.ChangeThreshold 0.25;
                 SectionDisplay.ClickFeedback "d" 3 false;
                 SectionDisplay.SettleFeedback 0 (Rejected "Network Error")] in
  (SectionDisplay.inflight st = []
   /\ SectionDisplay.one_at_a_time st events = true
   /\ SectionDisplay.key "d" 1 ∈ SectionDisplay.feedbackGiven st)
  /\ SectionDisplay.promptShown true
       (SectionDisplay.expandedSections (SectionDisplay.run st events))
       (SectionDisplay.feedbackGiven (SectionDisplay.run st events))
       (SectionDisplay.key "d" 1) = false.
Proof.
  intros st events.
  assert (Hnone : SectionDisplay.inflight st = []) by reflexivity.
  assert (Hok : SectionDisplay.one_at_a_time st events = true) by reflexivity.
  assert (Hin : SectionDisplay.key "d" 1 ∈ SectionDisplay.feedbackGiven st).
  { apply (bool_decide_unpack _). vm_compute. reflexivity. }
  split; [auto |].
  exact (proj2 (one_at_a_time_keeps_feedback st events Hnone Hok) true _ Hin).
Defined.

(** After two overlapping clicks and one success, the key in the set is the
    key of a posted request. *)
Lemma feedbackGiven_was_posted_witness :
  let events := (Samples.expand_both ++ Samples.click_both
                 ++ [SectionDisplay.SettleFeedback 1 (Resolved tt)])%list in
  SectionDisplay.key "d" 2
    ∈ SectionDisplay.feedbackGiven (SectionDisplay.run SectionDisplay.initial events)
  /\ exists r,
       In r (SectionDisplay.posted (SectionDisplay.run SectionDisplay.initial events))
       /\ SectionDisplay.request_key r = SectionDisplay.key "d" 2.
Proof.
  intros events.
  assert (Hin : SectionDisplay.key "d" 2
            ∈ SectionDisplay.feedbackGiven (SectionDisplay.run SectionDisplay.initial events)).
  { apply (bool_decide_unpack _). vm_compute. reflexivity. }
  split; [exact Hin |].
  exact (feedbackGiven_was_posted events _ Hin).
Defined.

(** ** DocumentUpload: the course of a drop *)

Section DropFacts.
Import DocumentUpload.

Variable api : Api.

Lemma promise_all_log (ids : list string) :
  fst (promise_all_getDocument api ids) = List.map GetDocument ids.
Proof.
  induction ids as [|id rest IH]; simpl; [reflexivity |].
  destruct (promise_all_getDocument api rest) as [log r]; simpl in IH.
  destruct (getDocument api id), r; simpl; rewrite IH; reflexivity.
Qed.

Lemma promise_all_resolved (ids : list string) (docs : list SectionDisplay.Document) :
  snd (promise_all_getDocument api ids) = Resolved docs <->
  List.Forall2 (fun id d => getDocument api id = Resolved d) ids docs.
Proof.
  revert docs. induction ids as [|id rest IH]; intros docs; simpl.
  - split.
    + intros E. inversion E. constructor.
    + intros F. inversion F. reflexivity.
  - destruct (promise_all_getDocument api rest) as [log r]; simpl in IH.
    destruct (getDocument api id) as [d|error] eqn:Hd, r as [ds|error']; simpl; split;
      intros H; try discriminate.
    + inversion H; subst. constructor; [exact Hd | apply IH; reflexivity].
    + inversion H; subst. rewrite Hd in H2. inversion H2; subst.
      apply IH in H4. inversion H4. reflexivity.
    + inversion H; subst. apply IH in H4. discriminate.
    + inversion H; subst. congruence.
    + inversion H; subst. congruence.
Qed.

(** The [try] block, outcome by outcome. *)
Lemma onDrop_try_cases (batchMode : bool) (threshold : float)
    (acceptedFiles : list File) (first : File) :
  let attempt := onDrop_try api batchMode threshold acceptedFiles first in
  (batchMode && (1 <? List.length acceptedFiles)%nat = true /\
   ((exists error, uploadBatch api acceptedFiles threshold = Rejected error
       /\ attempt = ([PostBatch acceptedFiles threshold], Rejected error))
    \/ (exists result, uploadBatch api acceptedFiles threshold = Resolved result
       /\ ((exists docs, snd (promise_all_getDocument api (document_ids result)) = Resolved docs
              /\ attempt = ((PostBatch acceptedFiles threshold
                             :: List.map GetDocument (document_ids result)
                             ++ [OnUploadSuccess docs])%list, Resolved tt))
           \/ (exists error, snd (promise_all_getDocument api (document_ids result)) = Rejected error
              /\ attempt = ((PostBatch acceptedFiles threshold
                             :: List.map GetDocument (document_ids result))%list,
                            Rejected error))))))
  \/ (batchMode && (1 <? List.length acceptedFiles)%nat = false /\
      ((exists error, uploadDocument api first threshold = Rejected error
          /\ attempt = ([PostUpload first threshold], Rejected error))
       \/ (exists result, uploadDocument api first threshold = Resolved result
          /\ ((exists d, getDocument api (document_id result) = Resolved d
                 /\ attempt = ([PostUpload first threshold; GetDocument (document_id result);
                                OnUploadSuccess [d]], Resolved tt))
              \/ (exists error, getDocument api (document_id result) = Rejected error
                 /\ attempt = ([PostUpload first threshold; GetDocument (document_id result)],
                               Rejected error)))))).
Proof.
  intros attempt. subst attempt. unfold onDrop_try.
  destruct (batchMode && (1 <? List.length acceptedFiles)%nat); [left | right];
    (split; [reflexivity |]); unfold await, bind, emit.
  - destruct (uploadBatch api acceptedFiles threshold) as [result|error];
      [right; exists result; split; [reflexivity |] | left; eauto].
    pose proof (promise_all_log (document_ids result)) as Hlog.
    destruct (promise_all_getDocument api (document_ids result)) as [log [docs|error]];
      simpl in *; subst log; [left | right]; eexists; split; reflexivity.
  - destruct (uploadDocument api first threshold) as [result|error];
      [right; exists result; split; [reflexivity |] | left; eauto].
    destruct (getDocument api (document_id result)) as [d|error];
      [left | right]; eexists; split; reflexivity.
Qed.

(** X9.  Every drop of at least one file runs the same course: the spinner
    goes on, one upload request is sent, then the documents are requested,
    then either [onUploadSuccess] is called once or the error is logged and
    alerted once, and the spinner goes off -- whatever the server answers. *)
Theorem onDrop_course (batchMode : bool) (threshold : float)
    (acceptedFiles : list File) :
  acceptedFiles <> [] ->
  exists (upload : Effect) (ids : list string) (ending : list Effect),
    onDrop api batchMode threshold acceptedFiles
    = (SetUploading true :: upload :: List.map GetDocument ids
       ++ ending ++ [SetUploading false])%list
    /\ is_upload upload = true
    /\ ((exists docs, ending = [OnUploadSuccess docs])
        \/ (exists error, ending = [ConsoleError ("Upload error: " ++ error);
                                    Alert ("Error uploading document: " ++ error)])).
Proof.
  intros Hne. destruct acceptedFiles as [|first rest]; [contradiction |].
  unfold onDrop.
  destruct (onDrop_try_cases batchMode threshold (first :: rest) first)
    as [[_ [(e & _ & ->) | (result & _ & [(docs & _ & ->) | (e & _ & ->)])]]
       | [_ [(e & _ & ->) | (result & _ & [(d & _ & ->) | (e & _ & ->)])]]]; simpl.
  - exists (PostBatch (first :: rest) threshold), [], (onDrop_catch (Rejected e)).
    split; [reflexivity | split; [reflexivity | right; eauto]].
  - exists (PostBatch (first :: rest) threshold), (document_ids result), [OnUploadSuccess docs].
    split; [| split; [reflexivity | left; eauto]].
    do 2 f_equal; try (symmetry; apply List.app_assoc).
  - exists (PostBatch (first :: rest) threshold), (document_ids result), (onDrop_catch (Rejected e)).
    split; [| split; [reflexivity | right; eauto]].
    do 2 f_equal; try (symmetry; apply List.app_assoc).
  - exists (PostUpload first threshold), [], (onDrop_catch (Rejected e)).
    split; [reflexivity | split; [reflexivity | right; eauto]].
  - exists (PostUpload first threshold), [document_id result], [OnUploadSuccess [d]].
    split; [reflexivity | split; [reflexivity | left; eauto]].
  - exists (PostUpload first threshold), [document_id result], (onDrop_catch (Rejected e)).
    split; [reflexivity | split; [reflexivity | right; eauto]].
Qed.

Lemma filter_getDocument_map (ids : list string) :
  List.filter is_getDocument (List.map GetDocument ids) = List.map GetDocument ids.
Proof. induction ids as [|id rest IH]; simpl; [reflexivity | rewrite IH; reflexivity]. Qed.

Lemma not_success_in_requests (docs : list SectionDisplay.Document) (ids : list string) :
  ~ In (OnUploadSuccess docs) (List.map GetDocument ids).
Proof. intros H. apply List.in_map_iff in H as (id & E & _). discriminate E. Qed.

(** X10.  [onUploadSuccess] receives the server's own answers: it is called
    with [docs] exactly when the upload request resolved and every document
    request resolved, and then [docs] are the answers to the returned ids,
    one per id and in their order (after a single upload, the one document). *)
Theorem onUploadSuccess_receives_the_answers (batchMode : bool) (threshold : float)
    (acceptedFiles : list File) (docs : list SectionDisplay.Document) :
  In (OnUploadSuccess docs) (onDrop api batchMode threshold acceptedFiles) <->
  exists first others, acceptedFiles = first :: others /\
    ((batchMode && (1 <? List.length acceptedFiles)%nat = true
      /\ exists result, uploadBatch api acceptedFiles threshold = Resolved result
           /\ List.Forall2 (fun id d => getDocument api id = Resolved d)
                (document_ids result) docs)
     \/ (batchMode && (1 <? List.length acceptedFiles)%nat = false
         /\ exists result d, uploadDocument api first threshold = Resolved result
              /\ getDocument api (document_id result) = Resolved d
              /\ docs = [d])).
Proof.
  destruct acceptedFiles as [|first rest].
  { simpl. split; [intros [] | intros (f & o & E & _); discriminate E]. }
  unfold onDrop.
  destruct (onDrop_try_cases batchMode threshold (first :: rest) first)
    as [[Hb [(e & Hu & ->) | (result & Hu & [(ds & Hall & ->) | (e & Hall & ->)])]]
       | [Hb [(e & Hu & ->) | (result & Hu & [(d & Hd & ->) | (e & Hd & ->)])]]];
    rewrite Hb; split.
  - simpl. intros [H | [H | [H | [H | [H | []]]]]]; discriminate H.
  - intros (f & o & _ & [(_ & r & Hr & _) | (Hf & _)]); congruence.
  - simpl. intros [H | [H | H]]; try discriminate H.
    rewrite <- List.app_assoc in H. apply List.in_app_or in H as [H | H];
      [destruct (not_success_in_requests _ _ H) |].
    simpl in H. destruct H as [H | [H | []]]; [| discriminate H].
    inversion H; subst. exists first, rest. split; [reflexivity |]. left.
    split; [reflexivity |]. exists result. split; [exact Hu |].
    apply promise_all_resolved. exact Hall.
  - intros (f & o & _ & [(_ & r & Hr & HF) | (Hf & _)]); [| discriminate Hf].
    rewrite Hu in Hr. inversion Hr; subst r.
    apply promise_all_resolved in HF. rewrite Hall in HF. inversion HF; subst.
    simpl. right. right. rewrite <- List.app_assoc. apply List.in_or_app. right.
    left. reflexivity.
  - simpl. intros [H | [H | H]]; try discriminate H.
    apply List.in_app_or in H as [H | H];
      [destruct (not_success_in_requests _ _ H) |].
    simpl in H. destruct H as [H | [H | [H | []]]]; discriminate H.
  - intros (f & o & _ & [(_ & r & Hr & HF) | (Hf & _)]); [| discriminate Hf].
    rewrite Hu in Hr. inversion Hr; subst r.
    apply promise_all_resolved in HF. congruence.
  - simpl. intros [H | [H | [H | [H | [H | []]]]]]; discriminate H.
  - intros (f & o & E & [(Hf & _) | (_ & r & d & Hr & _)]); [discriminate Hf |].
    inversion E; subst. congruence.
  - simpl. intros [H | [H | [H | [H | [H | []]]]]]; try discriminate H.
    inversion H; subst. exists first, rest. split; [reflexivity |]. right.
    split; [reflexivity |]. exists result, d. auto.
  - intros (f & o & E & [(Hf & _) | (_ & r & d' & Hr & Hd' & ->)]); [discriminate Hf |].
    inversion E; subst. rewrite Hu in Hr. inversion Hr; subst r.
    rewrite Hd in Hd'. inversion Hd'; subst. simpl. auto.
  - simpl. intros [H | [H | [H | [H | [H | [H | []]]]]]]; discriminate H.
  - intros (f & o & E & [(Hf & _) | (_ & r & d & Hr & Hd' & _)]); [discriminate Hf |].
    inversion E; subst. rewrite Hu in Hr. inversion Hr; subst r. congruence.
Qed.

(** X11.  Documents are requested only after the upload request has
    resolved.  After a batch upload every returned id is requested, in the
    order returned, even when some of these requests fail; after a single
    upload the one returned id is requested. *)
Theorem documents_requested_after_upload (batchMode : bool) (threshold : float)
    (acceptedFiles : list File) :
  List.filter is_getDocument (onDrop api batchMode threshold acceptedFiles)
  = match acceptedFiles with
    | [] => []
    | first :: _ =>
        if batchMode && (1 <? List.length acceptedFiles)%nat then
          match uploadBatch api acceptedFiles threshold with
          | Resolved result => List.map GetDocument (document_ids result)
          | Rejected _ => []
          end
        else
          match uploadDocument api first threshold with
          | Resolved result => [GetDocument (document_id result)]
          | Rejected _ => []
          end
    end.
Proof.
  destruct acceptedFiles as [|first rest]; [reflexivity |].
  unfold onDrop.
  destruct (onDrop_try_cases batchMode threshold (first :: rest) first)
    as [[Hb [(e & Hu & ->) | (result & Hu & [(ds & Hall & ->) | (e & Hall & ->)])]]
       | [Hb [(e & Hu & ->) | (result & Hu & [(d & Hd & ->) | (e & Hd & ->)])]]];
    rewrite Hb, Hu; simpl; try reflexivity.
  - rewrite !List.filter_app, filter_getDocument_map. simpl.
    rewrite !List.app_nil_r. reflexivity.
  - rewrite !List.filter_app, filter_getDocument_map. simpl.
    rewrite !List.app_nil_r. reflexivity.
Qed.

End DropFacts.

(** A refused upload, a batch with a missing document, and a batch that
    succeeds. *)
Lemma onDrop_course_witness :
  [Samples.report_pdf] <> []
  /\ DocumentUpload.onDrop Samples.refusing_api false 0.5 [Samples.report_pdf]
     = [ DocumentUpload.SetUploading true;
         DocumentUpload.PostUpload Samples.report_pdf 0.5;
         DocumentUpload.ConsoleError "Upload error: Unsupported file type";
         DocumentUpload.Alert "Error uploading document: Unsupported file type";
         DocumentUpload.SetUploading false ]
  /\ exists upload ids ending,
       DocumentUpload.onDrop Samples.refusing_api false 0.5 [Samples.report_pdf]
       = (DocumentUpload.SetUploading true :: upload
          :: List.map DocumentUpload.GetDocument ids
          ++ ending ++ [DocumentUpload.SetUploading false])%list.
Proof.
  assert (Hne : [Samples.report_pdf] <> []) by discriminate.
  split; [exact Hne |]. split; [reflexivity |].
  destruct (onDrop_course Samples.refusing_api false 0.5 [Samples.report_pdf] Hne)
    as (upload & ids & ending & E & _).
  exists upload, ids, ending. exact E.
Defined.

(** A batch of two files on the obliging server: both documents arrive, in
    the order of the ids. *)
Lemma onUploadSuccess_receives_the_answers_witness :
  let files := [Samples.report_pdf; Samples.notes_txt] in
  let docs := [Samples.empty_document "report.pdf"; Samples.empty_document "notes.txt"] in
  In (DocumentUpload.OnUploadSuccess docs)
     (DocumentUpload.onDrop Samples.obliging_api true 0.5 files).
Proof.
  intros files docs.
  apply (proj2 (onUploadSuccess_receives_the_answers Samples.obliging_api true 0.5
                  files docs)).
  exists Samples.report_pdf, [Samples.notes_txt]. split; [reflexivity |]. left.
  split; [reflexivity |]. eexists. split; [reflexivity |].
  repeat constructor.
Defined.

(** ** App: which screen is shown *)

Section AppFacts.
Import App.

Lemma screen_step (st : State) (e : Event) :
  (view st = "upload" /\ documents st = []) \/ view st = "results" ->
  (view (step st e) = "upload" /\ documents (step st e) = [])
  \/ view (step st e) = "results".
Proof. destruct e; simpl; auto. Qed.

(** X12.  Whatever uploads succeed, "New Upload" is clicked or the training
    box is ticked, [App] is in one of two situations: the upload screen with
    no documents kept and no header controls, or the results screen showing
    the kept documents with the header controls.  The upload screen never
    holds the documents of an earlier upload. *)
Theorem app_shows_upload_or_results (events : list Event) :
  let st := run initial events in
  (view st = "upload" /\ documents st = []
   /\ main st = ShowDocumentUpload /\ header_controls st = false)
  \/ (view st = "results"
      /\ main st = ShowSectionDisplay (documents st) (trainingMode st)
      /\ header_controls st = true).
Proof.
  intros st.
  assert (Hinv : forall es s,
            ((view s = "upload" /\ documents s = []) \/ view s = "results") ->
            (view (run s es) = "upload" /\ documents (run s es) = [])
            \/ view (run s es) = "results").
  { induction es as [|e rest IH]; intros s Hs; simpl; [exact Hs |].
    apply IH, screen_step, Hs. }
  destruct (Hinv events initial (or_introl (conj eq_refl eq_refl))) as [[Hv Hd] | Hv];
    fold st in Hv; [fold st in Hd; left | right];
    unfold main, header_controls; rewrite Hv; simpl; auto.
Qed.

End AppFacts.
